(** * pb-audit: audit logging for a record-oriented backend

    A shallow embedding of the Go package [pbaudit] (constants.go,
    options.go, the schema provisioner, the logger and the event hooks)
    and of the stand-alone application in main.go, followed by the
    properties of the event-capture pipeline.

    The host platform (PocketBase) is an external collaborator.  Its
    storage calls are modelled on a [World] value that is threaded through
    every operation; the verdicts the package cannot compute itself (does a
    save succeed, does a record serialise) are the fields of a [Platform]
    value that every operation takes as an argument. *)

From Stdlib Require Import String Ascii ZArith List Bool Lia.
From stdpp Require Import base option list strings gmap fin_maps.
Import ListNotations.

Local Open Scope string_scope.
Local Open Scope list_scope.

(* ===================================================================== *)
(** ** constants.go *)
(* ===================================================================== *)

Definition EventTypeCreate : string := "create".
Definition EventTypeUpdate : string := "update".
Definition EventTypeDelete : string := "delete".
Definition EventTypeCreateReq : string := "create_request".
Definition EventTypeUpdateReq : string := "update_request".
Definition EventTypeDeleteReq : string := "delete_request".
Definition EventTypeAuth : string := "auth".
Definition DefaultSchemaPath : string := "pb_schema.json".

(** The package-level struct value [AuditLogFields]. *)
Module AuditLogFields.
Definition EventType : string := "event_type".
Definition CollectionName : string := "collection_name".
Definition RecordID : string := "record_id".
Definition UserID : string := "user_id".
Definition AuthMethod : string := "auth_method".
Definition RequestMethod : string := "request_method".
Definition RequestIP : string := "request_ip".
Definition RequestURL : string := "request_url".
Definition Timestamp : string := "timestamp".
Definition BeforeChanges : string := "before_changes".
Definition AfterChanges : string := "after_changes".
Definition Created : string := "created".
Definition Updated : string := "updated".
End AuditLogFields.

Definition AllEventTypes : list string :=
  [ EventTypeCreate; EventTypeUpdate; EventTypeDelete;
    EventTypeCreateReq; EventTypeUpdateReq; EventTypeDeleteReq;
    EventTypeAuth ].

(* ===================================================================== *)
(** ** Values, records and collections of the host platform *)
(* ===================================================================== *)

(** A Go [interface{}] value as the package stores and reads it.  [VNil]
    is the nil interface, the only value the code compares against. *)
Inductive value : Type :=
  | VNil
  | VStr (s : string)
  | VNum (n : Z)
  | VBool (b : bool)
  | VTime (t : Z).

Definition isNil (v : value) : bool :=
  match v with VNil => true | _ => false end.

(** [core.Record]: an identifier, the name of the collection it belongs to
    ([Collection().Name]) and its field data.  A [*core.Record] that may be
    nil is an [option CoreRecord]. *)
Record CoreRecord : Type := mkRecord {
  Id : string;
  recCollection : string;
  recData : gmap string value
}.

(** [record.Get(key)]: nil when the key holds nothing. *)
Definition Get (r : CoreRecord) (key : string) : value :=
  default VNil (recData r !! key).

(** [record.Set(key, value)]. *)
Definition SetField (r : CoreRecord) (key : string) (v : value) : CoreRecord :=
  {| Id := Id r; recCollection := recCollection r;
     recData := <[key := v]> (recData r) |}.

(** The field kinds the provisioner adds to the audit collection. *)
Inductive Field : Type :=
  | SelectField (name : string) (required : bool) (values : list string)
  | TextField (name : string) (required : bool)
  | DateField (name : string) (required : bool)
  | AutodateField (name : string) (onCreate onUpdate : bool).

Record Index : Type := mkIndex {
  idxName : string;
  idxUnique : bool;
  idxColumns : string;
  idxWhere : string
}.

(** [core.Collection], with the parts the provisioner sets. *)
Record Collection : Type := mkCollection {
  colName : string;
  ListRule : option string;
  ViewRule : option string;
  CreateRule : option string;
  UpdateRule : option string;
  DeleteRule : option string;
  Fields : list Field;
  Indexes : list Index
}.

(** Go [error] values that reach this package.  A returned [error] that may
    be nil is an [option error]. *)
Inductive error : Type :=
  | ErrCollectionNotFound (name : string)
  | ErrRecordNotFound (collection id : string)
  | ErrRequestInfo (msg : string)
  | ErrStorage (msg : string).

(** The lines written with [log.Printf] / [log.Println]. *)
Inductive LogMsg : Type :=
  | LogFindAuditFailed (name : string) (e : error)
  | LogMarshalBeforeRecordFailed
  | LogMarshalBeforeChangesFailed
  | LogMarshalAfterRecordFailed
  | LogMarshalAfterChangesFailed
  | LogSaveFailed (e : error)
  | LogAuditCreated (eventType collectionName recordId : string)
  | LogRequestInfoFailed (e : error)
  | LogLoadOriginalFailed (e : error)
  | LogEventFailed (eventType : string) (e : error)
  | LogCollectionExists (name : string)
  | LogCollectionCreated (name : string).

(** The state the package observes and changes: the collections and the
    records of the application, the server clock read by [time.Now()], and
    the process log. *)
Record World : Type := mkWorld {
  collections : gmap string Collection;
  records : list CoreRecord;
  clock : Z;
  console : list LogMsg
}.

Definition addLog (w : World) (msgs : list LogMsg) : World :=
  {| collections := collections w; records := records w;
     clock := clock w; console := console w ++ msgs |}.

(** What the package leaves to the platform and to [encoding/json]. *)
Record Platform : Type := mkPlatform {
  (** [app.Save(record)]: the error it returns, if any *)
  saveRecordErr : World -> CoreRecord -> option error;
  (** [app.Save(collection)]: the error it returns, if any *)
  saveCollectionErr : World -> Collection -> option error;
  (** [json.Marshal(record)]: [None] when it returns an error *)
  marshalRecord : CoreRecord -> option string;
  (** [json.Unmarshal] of that text into a generic map followed by
      [json.Marshal] of the map: [None] when the second marshal fails *)
  marshalMap : string -> option string
}.

(** [app.FindCollectionByNameOrId(name)]. *)
Definition FindCollectionByNameOrId (w : World) (name : string)
  : error + Collection :=
  match collections w !! name with
  | Some c => inr c
  | None => inl (ErrCollectionNotFound name)
  end.

(** [app.FindRecordById(collection, id)]. *)
Definition FindRecordById (w : World) (collection id : string)
  : error + CoreRecord :=
  match List.find (fun r => String.eqb (recCollection r) collection
                            && String.eqb (Id r) id) (records w) with
  | Some r => inr r
  | None => inl (ErrRecordNotFound collection id)
  end.

(** [app.Save(record)]: on success the record joins the stored records.
    The id and the autodate fields that the platform fills in on the way
    are left out; no property below reads them. *)
Definition SaveRecord (P : Platform) (w : World) (r : CoreRecord)
  : option error * World :=
  match saveRecordErr P w r with
  | Some e => (Some e, w)
  | None => (None, {| collections := collections w;
                      records := records w ++ [r];
                      clock := clock w; console := console w |})
  end.

(** [app.Save(collection)]. *)
Definition SaveCollection (P : Platform) (w : World) (c : Collection)
  : option error * World :=
  match saveCollectionErr P w c with
  | Some e => (Some e, w)
  | None => (None, {| collections := <[colName c := c]> (collections w);
                      records := records w;
                      clock := clock w; console := console w |})
  end.

(** [core.NewRecord(collection)]. *)
Definition NewRecord (c : Collection) : CoreRecord :=
  {| Id := ""; recCollection := colName c; recData := ∅ |}.

(* ===================================================================== *)
(** ** options.go *)
(* ===================================================================== *)

Record Options : Type := mkOptions {
  CollectionName : string;
  EnableStandardEvents : bool;
  EnableRequestEvents : bool;
  EnableAuthEvents : bool;
  (** a nil [EventFilter] is [None] *)
  EventFilter : option (string -> string -> bool);
  SchemaPath : string;
  CreateAuditCollection : bool;
  FailOnSchemaError : bool;
  LogToConsole : bool
}.

Definition DefaultOptions : Options :=
  {| CollectionName := "audit_logs";
     EnableStandardEvents := true;
     EnableRequestEvents := true;
     EnableAuthEvents := true;
     EventFilter := None;
     SchemaPath := "";
     CreateAuditCollection := true;
     FailOnSchemaError := false;
     LogToConsole := true |}.

Definition applyDefaultOptions (options : Options) : Options :=
  let defaults := DefaultOptions in
  if String.eqb (CollectionName options) "" then
    {| CollectionName := CollectionName defaults;
       EnableStandardEvents := EnableStandardEvents options;
       EnableRequestEvents := EnableRequestEvents options;
       EnableAuthEvents := EnableAuthEvents options;
       EventFilter := EventFilter options;
       SchemaPath := SchemaPath options;
       CreateAuditCollection := CreateAuditCollection options;
       FailOnSchemaError := FailOnSchemaError options;
       LogToConsole := LogToConsole options |}
  else options.

(* ===================================================================== *)
(** ** The schema provisioner: ensureAuditCollection *)
(* ===================================================================== *)

Definition adminOnly : option string := Some "@request.auth.type = 'admin'".

(** The collection built between the lookup and the save. *)
Definition auditCollectionDefinition (collectionName : string) : Collection :=
  {| colName := collectionName;
     ListRule := adminOnly;
     ViewRule := adminOnly;
     CreateRule := adminOnly;
     UpdateRule := adminOnly;
     DeleteRule := adminOnly;
     Fields :=
       [ SelectField AuditLogFields.EventType true AllEventTypes;
         TextField AuditLogFields.CollectionName true;
         TextField AuditLogFields.RecordID true;
         TextField AuditLogFields.UserID false;
         TextField AuditLogFields.AuthMethod false;
         TextField AuditLogFields.RequestMethod false;
         TextField AuditLogFields.RequestIP false;
         TextField AuditLogFields.RequestURL false;
         DateField AuditLogFields.Timestamp true;
         TextField AuditLogFields.BeforeChanges false;
         TextField AuditLogFields.AfterChanges false;
         AutodateField AuditLogFields.Created true false;
         AutodateField AuditLogFields.Updated true true ];
     Indexes :=
       [ mkIndex "idx_audit_collection_name" false AuditLogFields.CollectionName "";
         mkIndex "idx_audit_record_id" false AuditLogFields.RecordID "";
         mkIndex "idx_audit_timestamp" false AuditLogFields.Timestamp "";
         mkIndex "idx_audit_user_id" false AuditLogFields.UserID "";
         mkIndex "idx_audit_event_type" false AuditLogFields.EventType "" ] |}.

Definition ensureAuditCollection (P : Platform) (collectionName : string)
    (w : World) : option error * World :=
  match FindCollectionByNameOrId w collectionName with
  | inr _ =>
      (* err == nil: already there *)
      (None, addLog w [LogCollectionExists collectionName])
  | inl _ =>
      let collection := auditCollectionDefinition collectionName in
      match SaveCollection P w collection with
      | (Some err, w') => (Some err, w')
      | (None, w') => (None, addLog w' [LogCollectionCreated collectionName])
      end
  end.

(** The number of collections of a world that carry a given name. *)
Definition collectionsNamed (w : World) (name : string) : nat :=
  size (filter (fun kc : string * Collection => colName kc.2 = name)
               (collections w)).

(** The collections of a well-formed application are stored under their
    own names. *)
Definition wellKeyed (w : World) : Prop :=
  forall k c, collections w !! k = Some c -> colName c = k.

(* ===================================================================== *)
(** ** The audit logger *)
(* ===================================================================== *)

(** [shouldLogEvent]. *)
Definition shouldLogEvent (options : Options)
    (collectionName eventType : string) : bool :=
  if String.eqb collectionName (CollectionName options) then false
  else match EventFilter options with
       | Some filter => filter collectionName eventType
       | None => true
       end.

(** "Set record ID from either before or after record". *)
Definition recordIdOf (afterRecord beforeRecord : option CoreRecord) : string :=
  match afterRecord with
  | Some a => Id a
  | None => match beforeRecord with
            | Some b => Id b
            | None => ""
            end
  end.

(** "Apply request information if available": one [Set] per key of the
    map, in the order the range loop visits them (the keys of a map are
    distinct, so the order does not show: lemma [applyRequestInfo_data]). *)
Definition applyRequestInfo (requestInfo : option (gmap string value))
    (auditRecord : CoreRecord) : CoreRecord :=
  match requestInfo with
  | None => auditRecord
  | Some info =>
      fold_left (fun r kv => SetField r kv.1 kv.2) (map_to_list info) auditRecord
  end.

(** The two-field probe made on one record. *)
Definition userFromRecord (r : CoreRecord) (auditRecord : CoreRecord)
  : CoreRecord :=
  if negb (isNil (Get r "user")) then
    SetField auditRecord AuditLogFields.UserID (Get r "user")
  else if negb (isNil (Get r "created_by")) then
    SetField auditRecord AuditLogFields.UserID (Get r "created_by")
  else auditRecord.

(** "If no user ID is set from request info, try to get it from the
    records". *)
Definition resolveUserID (afterRecord beforeRecord : option CoreRecord)
    (auditRecord : CoreRecord) : CoreRecord :=
  if isNil (Get auditRecord AuditLogFields.UserID) then
    match afterRecord with
    | Some a => userFromRecord a auditRecord
    | None => match beforeRecord with
              | Some b => userFromRecord b auditRecord
              | None => auditRecord
              end
    end
  else auditRecord.

(** "Store before/after record data if available": marshal the record,
    pass the text through a generic map, store the text under [key]; a
    failure of either marshal is logged and the field is left unset. *)
Definition storeChanges (P : Platform) (key : string)
    (recordFailed changesFailed : LogMsg) (r : option CoreRecord)
    (auditRecord : CoreRecord) : CoreRecord * list LogMsg :=
  match r with
  | None => (auditRecord, [])
  | Some rec =>
      match marshalRecord P rec with
      | Some dataJSON =>
          match marshalMap P dataJSON with
          | Some json => (SetField auditRecord key (VStr json), [])
          | None => (auditRecord, [changesFailed])
          end
      | None => (auditRecord, [recordFailed])
      end
  end.

(** Lines 58 to 75 of [logEvent]: the new record with its event type,
    collection name, record id and timestamp. *)
Definition basicEntry (now : Z) (auditCollection : Collection)
    (afterRecord beforeRecord : option CoreRecord)
    (collectionName eventType : string) : CoreRecord :=
  let auditRecord := NewRecord auditCollection in
  let auditRecord := SetField auditRecord AuditLogFields.EventType (VStr eventType) in
  let auditRecord := SetField auditRecord AuditLogFields.CollectionName (VStr collectionName) in
  let recordId := recordIdOf afterRecord beforeRecord in
  let auditRecord := SetField auditRecord AuditLogFields.RecordID (VStr recordId) in
  let auditRecord := SetField auditRecord AuditLogFields.Timestamp (VTime now) in
  auditRecord.

(** Lines 58 to 137 of [logEvent]: the entry handed to [Save] and the
    lines logged while it is assembled. *)
Definition assembleEntry (P : Platform) (now : Z) (auditCollection : Collection)
    (afterRecord beforeRecord : option CoreRecord)
    (collectionName eventType : string)
    (requestInfo : option (gmap string value)) : CoreRecord * list LogMsg :=
  let auditRecord :=
    basicEntry now auditCollection afterRecord beforeRecord
      collectionName eventType in
  let auditRecord := applyRequestInfo requestInfo auditRecord in
  let auditRecord := resolveUserID afterRecord beforeRecord auditRecord in
  let '(auditRecord, logs1) :=
    storeChanges P AuditLogFields.BeforeChanges
      LogMarshalBeforeRecordFailed LogMarshalBeforeChangesFailed
      beforeRecord auditRecord in
  let '(auditRecord, logs2) :=
    storeChanges P AuditLogFields.AfterChanges
      LogMarshalAfterRecordFailed LogMarshalAfterChangesFailed
      afterRecord auditRecord in
  (auditRecord, (logs1 ++ logs2)%list).

(** [logEvent]. *)
Definition logEvent (P : Platform) (options : Options)
    (afterRecord beforeRecord : option CoreRecord)
    (collectionName eventType : string)
    (requestInfo : option (gmap string value)) (w : World)
  : option error * World :=
  if negb (shouldLogEvent options collectionName eventType) then (None, w)
  else
    match FindCollectionByNameOrId w (CollectionName options) with
    | inl err =>
        (Some err, addLog w [LogFindAuditFailed (CollectionName options) err])
    | inr auditCollection =>
        let '(auditRecord, logs) :=
          assembleEntry P (clock w) auditCollection afterRecord beforeRecord
            collectionName eventType requestInfo in
        let w := addLog w logs in
        match SaveRecord P w auditRecord with
        | (Some err, w) => (Some err, addLog w [LogSaveFailed err])
        | (None, w) =>
            if LogToConsole options then
              (None, addLog w [LogAuditCreated eventType collectionName
                                 (recordIdOf afterRecord beforeRecord)])
            else (None, w)
        end
    end.

(* ===================================================================== *)
(** ** Request context: extractIP *)
(* ===================================================================== *)

(** [strings.ToLower], [strings.Split] on a one-byte separator and
    [strings.TrimSpace], on byte strings.  Header names and addresses are
    ASCII; bytes outside ASCII are left as they are. *)
Definition lowerByte (c : ascii) : ascii :=
  let n := nat_of_ascii c in
  if ((65 <=? n) && (n <=? 90))%nat then ascii_of_nat (n + 32) else c.

Fixpoint ToLower (s : string) : string :=
  match s with
  | EmptyString => EmptyString
  | String c rest => String (lowerByte c) (ToLower rest)
  end.

Fixpoint Split (s : string) (sep : ascii) : list string :=
  match s with
  | EmptyString => [EmptyString]
  | String c rest =>
      if Ascii.eqb c sep then EmptyString :: Split rest sep
      else match Split rest sep with
           | piece :: more => String c piece :: more
           | [] => [String c EmptyString]
           end
  end.

Definition isSpace (c : ascii) : bool :=
  let n := nat_of_ascii c in
  ((9 <=? n) && (n <=? 13) || (n =? 32))%nat.

Fixpoint trimLeft (s : string) : string :=
  match s with
  | EmptyString => EmptyString
  | String c rest => if isSpace c then trimLeft rest else s
  end.

Fixpoint trimRight (s : string) : string :=
  match s with
  | EmptyString => EmptyString
  | String c rest =>
      match trimRight rest with
      | EmptyString => if isSpace c then EmptyString else String c EmptyString
      | t => String c t
      end
  end.

Definition TrimSpace (s : string) : string := trimRight (trimLeft s).

(** [core.RequestInfo], with the parts the package reads. *)
Record RequestInfo : Type := mkRequestInfo {
  Method : string;
  Context : string;
  Headers : gmap string string;
  Auth : option CoreRecord
}.

(** The argument of [extractIP] is an [interface{}] probed with two type
    assertions: does the event have [RealIP()], does it have
    [RequestInfo()].  An event is what those two probes find. *)
Record EventCaps : Type := mkEventCaps {
  capRealIP : option string;
  capRequestInfo : option (error + RequestInfo)
}.

(** The lower-cased copy of the headers that [extractIP] builds, one
    assignment per header in the order the range loop visits them.  Go
    leaves that order open; it shows only when two header names differ in
    letter case alone. *)
Definition headerMap (headers : gmap string string) : gmap string string :=
  fold_left (fun m kv => <[ToLower kv.1 := kv.2]> m) (map_to_list headers) ∅.

(** [v, ok := headerMap[name]; ok && v != ""]. *)
Definition nonEmptyHeader (m : gmap string string) (name : string)
  : option string :=
  match m !! name with
  | Some v => if String.eqb v "" then None else Some v
  | None => None
  end.

Definition comma : ascii := ","%char.

(** The header part of [extractIP]. *)
Definition ipFromHeaders (headers : gmap string string) : string :=
  let headerMap := headerMap headers in
  match nonEmptyHeader headerMap "cf-connecting-ip" with
  | Some cfIP => cfIP
  | None =>
    let viaForwarded :=
      match nonEmptyHeader headerMap "x-forwarded-for" with
      | Some forwardedFor =>
          match Split forwardedFor comma with
          | first :: _ => Some (TrimSpace first)   (* len(ips) > 0 *)
          | [] => None
          end
      | None => None
      end in
    match viaForwarded with
    | Some ip => ip
    | None =>
      match nonEmptyHeader headerMap "x-real-ip" with
      | Some realIP => realIP
      | None =>
        match nonEmptyHeader headerMap "fly-client-ip" with
        | Some flyIP => flyIP
        | None => "unknown"
        end
      end
    end
  end.

(** [extractIP]: the address and the line it may log. *)
Definition extractIP (e : EventCaps) : string * list LogMsg :=
  match capRealIP e with
  | Some ip => (ip, [])
  | None =>
      match capRequestInfo e with
      | Some (inl err) => ("unknown", [LogRequestInfoFailed err])
      | None => ("unknown", [])
      | Some (inr reqInfo) => (ipFromHeaders (Headers reqInfo), [])
      end
  end.

(** main.go, the stand-alone application: the address its request and auth
    hooks store.  [m[k]] of a Go map is the empty string when [k] is
    missing. *)
Definition goIndex (m : gmap string string) (k : string) : string :=
  default "" (m !! k).

Definition mainClientIP (headers : gmap string string) : string :=
  let clientIP := goIndex headers "x-forwarded-for" in
  let clientIP :=
    if String.eqb clientIP "" then goIndex headers "x-real-ip" else clientIP in
  let clientIP :=
    if String.eqb clientIP "" then goIndex headers "cf-connecting-ip"
    else clientIP in
  clientIP.

(* ===================================================================== *)
(** ** The event hooks *)
(* ===================================================================== *)

(** [core.RecordEvent]. *)
Record RecordEvent : Type := mkRecordEvent {
  evRecord : CoreRecord
}.

(** [core.RecordRequestEvent]: it has both [RealIP()] and [RequestInfo()]. *)
Record RecordRequestEvent : Type := mkRecordRequestEvent {
  rqCollection : string;          (* e.Collection.Name *)
  rqRecord : CoreRecord;          (* e.Record *)
  rqRealIP : string;              (* e.RealIP() *)
  rqRequestInfo : error + RequestInfo   (* e.RequestInfo() *)
}.

(** [core.RecordAuthRequestEvent]; the hook itself tests its record
    against nil. *)
Record RecordAuthRequestEvent : Type := mkRecordAuthRequestEvent {
  auRecord : option CoreRecord;
  auAuthMethod : string;
  auRealIP : string;
  auRequestInfo : error + RequestInfo
}.

Definition capsOfRequest (e : RecordRequestEvent) : EventCaps :=
  {| capRealIP := Some (rqRealIP e); capRequestInfo := Some (rqRequestInfo e) |}.

Definition capsOfAuth (e : RecordAuthRequestEvent) : EventCaps :=
  {| capRealIP := Some (auRealIP e); capRequestInfo := Some (auRequestInfo e) |}.

(** How a bound function leaves: [return e.Next()], [return] of a value
    without calling [e.Next()], or a run-time panic. *)
Inductive HookOutcome : Type :=
  | CallsNext
  | Returns (err : option error)
  | Panics.

(** The lines after [e.RequestInfo()] in every request hook; [withAuth] is
    false in the auth hook, which does not read [reqInfo.Auth]. *)
Definition addRequestDetails (withAuth : bool) (reqInfo : error + RequestInfo)
    (requestInfo : gmap string value) : gmap string value * list LogMsg :=
  match reqInfo with
  | inl err => (requestInfo, [LogRequestInfoFailed err])
  | inr reqInfo =>
      let requestInfo :=
        <[AuditLogFields.RequestMethod := VStr (Method reqInfo)]> requestInfo in
      let requestInfo :=
        <[AuditLogFields.RequestURL := VStr (Context reqInfo)]> requestInfo in
      let requestInfo :=
        match withAuth, Auth reqInfo with
        | true, Some auth =>
            <[AuditLogFields.UserID := VStr (Id auth)]> requestInfo
        | _, _ => requestInfo
        end in
      (requestInfo, [])
  end.

(** "Extract request information": the block the three request hooks
    share, from [make(map[string]interface{})] to the end of the
    [RequestInfo()] branch; the map and the lines logged on the way.
    hooks.go stores [e.RealIP()], the other copy of the file stores
    [extractIP(e)]; on a request event the two are the same address
    (lemma [extractIP_request]). *)
Definition requestInfoOf (e : RecordRequestEvent)
  : gmap string value * list LogMsg :=
  let requestInfo : gmap string value := ∅ in
  let '(ip, logs1) := extractIP (capsOfRequest e) in
  let requestInfo := <[AuditLogFields.RequestIP := VStr ip]> requestInfo in
  let '(requestInfo, logs2) :=
    addRequestDetails true (rqRequestInfo e) requestInfo in
  (requestInfo, (logs1 ++ logs2)%list).

(** The same block of the auth hook. *)
Definition authRequestInfoOf (e : RecordAuthRequestEvent)
  : gmap string value * list LogMsg :=
  let requestInfo : gmap string value := ∅ in
  let requestInfo :=
    <[AuditLogFields.AuthMethod := VStr (auAuthMethod e)]> requestInfo in
  let requestInfo :=
    match auRecord e with
    | Some r => <[AuditLogFields.UserID := VStr (Id r)]> requestInfo
    | None => requestInfo
    end in
  let '(ip, logs1) := extractIP (capsOfAuth e) in
  let requestInfo := <[AuditLogFields.RequestIP := VStr ip]> requestInfo in
  let '(requestInfo, logs2) :=
    addRequestDetails false (auRequestInfo e) requestInfo in
  (requestInfo, (logs1 ++ logs2)%list).

(** "err = l.logEvent(...); if err != nil { log.Printf(...) }". *)
Definition logAndDiscard (eventType : string) (r : option error * World)
  : World :=
  match r with
  | (Some err, w) => addLog w [LogEventFailed eventType err]
  | (None, w) => w
  end.

(** "originalRecord, err := l.app.FindRecordById(...)": a nil record and a
    logged line when the read fails. *)
Definition loadOriginal (w : World) (e : RecordRequestEvent)
  : option CoreRecord * list LogMsg :=
  match FindRecordById w (rqCollection e) (Id (rqRecord e)) with
  | inr r => (Some r, [])
  | inl err => (None, [LogLoadOriginalFailed err])
  end.

(** *** setupStandardEventHooks *)

Definition onRecordAfterCreateSuccess (P : Platform) (options : Options)
    (e : RecordEvent) (w : World) : HookOutcome * World :=
  let collectionName := recCollection (evRecord e) in
  if String.eqb collectionName (CollectionName options) then (CallsNext, w)
  else
    let '(err, w) :=
      logEvent P options (Some (evRecord e)) None collectionName
        EventTypeCreate None w in
    (Returns err, w).

Definition onRecordAfterUpdateSuccess (P : Platform) (options : Options)
    (e : RecordEvent) (w : World) : HookOutcome * World :=
  let collectionName := recCollection (evRecord e) in
  if String.eqb collectionName (CollectionName options) then (CallsNext, w)
  else
    let '(err, w) :=
      logEvent P options (Some (evRecord e)) None collectionName
        EventTypeUpdate None w in
    (Returns err, w).

Definition onRecordAfterDeleteSuccess (P : Platform) (options : Options)
    (e : RecordEvent) (w : World) : HookOutcome * World :=
  let collectionName := recCollection (evRecord e) in
  if String.eqb collectionName (CollectionName options) then (CallsNext, w)
  else
    let '(err, w) :=
      logEvent P options None (Some (evRecord e)) collectionName
        EventTypeDelete None w in
    (Returns err, w).

(** *** setupRequestEventHooks *)

Definition onRecordCreateRequest (P : Platform) (options : Options)
    (e : RecordRequestEvent) (w : World) : HookOutcome * World :=
  if String.eqb (rqCollection e) (CollectionName options) then (CallsNext, w)
  else
    let '(requestInfo, logs) := requestInfoOf e in
    let w := addLog w logs in
    let w :=
      logAndDiscard EventTypeCreateReq
        (logEvent P options (Some (rqRecord e)) None (rqCollection e)
           EventTypeCreateReq (Some requestInfo) w) in
    (CallsNext, w).

Definition onRecordUpdateRequest (P : Platform) (options : Options)
    (e : RecordRequestEvent) (w : World) : HookOutcome * World :=
  if String.eqb (rqCollection e) (CollectionName options) then (CallsNext, w)
  else
    let '(originalRecord, logs0) := loadOriginal w e in
    let w := addLog w logs0 in
    let '(requestInfo, logs) := requestInfoOf e in
    let w := addLog w logs in
    let w :=
      logAndDiscard EventTypeUpdateReq
        (logEvent P options (Some (rqRecord e)) originalRecord (rqCollection e)
           EventTypeUpdateReq (Some requestInfo) w) in
    (CallsNext, w).

Definition onRecordDeleteRequest (P : Platform) (options : Options)
    (e : RecordRequestEvent) (w : World) : HookOutcome * World :=
  if String.eqb (rqCollection e) (CollectionName options) then (CallsNext, w)
  else
    let '(requestInfo, logs) := requestInfoOf e in
    let w := addLog w logs in
    let w :=
      logAndDiscard EventTypeDeleteReq
        (logEvent P options None (Some (rqRecord e)) (rqCollection e)
           EventTypeDeleteReq (Some requestInfo) w) in
    (CallsNext, w).

(** *** setupAuthEventHooks *)

Definition onRecordAuthRequest (P : Platform) (options : Options)
    (e : RecordAuthRequestEvent) (w : World) : HookOutcome * World :=
  let '(requestInfo, logs) := authRequestInfoOf e in
  let w := addLog w logs in
  match auRecord e with
  | None => (Panics, w)      (* e.Record.Collection() on a nil record *)
  | Some r =>
      let w :=
        logAndDiscard EventTypeAuth
          (logEvent P options (Some r) None (recCollection r)
             EventTypeAuth (Some requestInfo) w) in
      (CallsNext, w)
  end.

(** The seven registration points and the event each one receives. *)
Inductive HookEvent : Type :=
  | AfterCreateSuccess (e : RecordEvent)
  | AfterUpdateSuccess (e : RecordEvent)
  | AfterDeleteSuccess (e : RecordEvent)
  | CreateRequest (e : RecordRequestEvent)
  | UpdateRequest (e : RecordRequestEvent)
  | DeleteRequest (e : RecordRequestEvent)
  | AuthRequest (e : RecordAuthRequestEvent).

Definition runHook (P : Platform) (options : Options) (ev : HookEvent)
    (w : World) : HookOutcome * World :=
  match ev with
  | AfterCreateSuccess e => onRecordAfterCreateSuccess P options e w
  | AfterUpdateSuccess e => onRecordAfterUpdateSuccess P options e w
  | AfterDeleteSuccess e => onRecordAfterDeleteSuccess P options e w
  | CreateRequest e => onRecordCreateRequest P options e w
  | UpdateRequest e => onRecordUpdateRequest P options e w
  | DeleteRequest e => onRecordDeleteRequest P options e w
  | AuthRequest e => onRecordAuthRequest P options e w
  end.

(** The event-type tag each registration point passes to [logEvent]. *)
Definition hookEventType (ev : HookEvent) : string :=
  match ev with
  | AfterCreateSuccess _ => EventTypeCreate
  | AfterUpdateSuccess _ => EventTypeUpdate
  | AfterDeleteSuccess _ => EventTypeDelete
  | CreateRequest _ => EventTypeCreateReq
  | UpdateRequest _ => EventTypeUpdateReq
  | DeleteRequest _ => EventTypeDeleteReq
  | AuthRequest _ => EventTypeAuth
  end.

(** A run of hooks, one event after the other. *)
Definition runHooks (P : Platform) (options : Options) (evs : list HookEvent)
    (w : World) : World :=
  fold_left (fun w ev => (runHook P options ev w).2) evs w.

(* ===================================================================== *)
(** ** Vocabulary of the properties *)
(* ===================================================================== *)

(** A field of an entry is present when it holds a non-nil value. *)
Definition present (r : CoreRecord) (key : string) : Prop := Get r key <> VNil.
Definition absent (r : CoreRecord) (key : string) : Prop := Get r key = VNil.

(** A request-info map that leaves a key alone. *)
Definition leavesKey (requestInfo : option (gmap string value)) (key : string)
  : Prop :=
  match requestInfo with
  | Some info => info !! key = None
  | None => True
  end.

(** The value a request-info map supplies under a key, nil if none. *)
Definition supplied (requestInfo : option (gmap string value)) (key : string)
  : value :=
  match requestInfo with
  | Some info => default VNil (info !! key)
  | None => VNil
  end.


(** What each registration point hands to [logEvent]: the after-record,
    the before-record (the update request hook reads it from storage), the
    collection name and the request-info map. *)
Definition hookAfter (ev : HookEvent) : option CoreRecord :=
  match ev with
  | AfterCreateSuccess e | AfterUpdateSuccess e => Some (evRecord e)
  | AfterDeleteSuccess _ => None
  | CreateRequest e | UpdateRequest e => Some (rqRecord e)
  | DeleteRequest _ => None
  | AuthRequest e => auRecord e
  end.

Definition hookBefore (w : World) (ev : HookEvent) : option CoreRecord :=
  match ev with
  | AfterDeleteSuccess e => Some (evRecord e)
  | DeleteRequest e => Some (rqRecord e)
  | UpdateRequest e => (loadOriginal w e).1
  | _ => None
  end.

Definition hookCollection (ev : HookEvent) : option string :=
  match ev with
  | AfterCreateSuccess e | AfterUpdateSuccess e | AfterDeleteSuccess e =>
      Some (recCollection (evRecord e))
  | CreateRequest e | UpdateRequest e | DeleteRequest e => Some (rqCollection e)
  | AuthRequest e => recCollection <$> auRecord e
  end.

Definition hookRequestInfo (ev : HookEvent) : option (gmap string value) :=
  match ev with
  | AfterCreateSuccess _ | AfterUpdateSuccess _ | AfterDeleteSuccess _ => None
  | CreateRequest e | UpdateRequest e | DeleteRequest e =>
      Some (requestInfoOf e).1
  | AuthRequest e => Some (authRequestInfoOf e).1
  end.

(** The keys a hook may put into the request-info map. *)
Definition requestKeys : list string :=
  [ AuditLogFields.RequestIP; AuditLogFields.RequestMethod;
    AuditLogFields.RequestURL; AuditLogFields.UserID;
    AuditLogFields.AuthMethod ].



(** The first non-nil value of a list, nil if there is none. *)
Fixpoint firstNonNil (vs : list value) : value :=
  match vs with
  | [] => VNil
  | v :: rest => if isNil v then firstNonNil rest else v
  end.

Definition fieldOf (r : option CoreRecord) (key : string) : value :=
  match r with
  | Some r => Get r key
  | None => VNil
  end.

(** The user-id precedence as the specification words it: one flat chain
    over request context, after-record and before-record. *)
Definition userIdFlatChain (requestInfo : option (gmap string value))
    (afterRecord beforeRecord : option CoreRecord) : value :=
  firstNonNil
    [ supplied requestInfo AuditLogFields.UserID;
      fieldOf afterRecord "user"; fieldOf afterRecord "created_by";
      fieldOf beforeRecord "user"; fieldOf beforeRecord "created_by" ].

(** The precedence with the before-record consulted only when there is no
    after-record. *)
Definition userIdNestedChain (requestInfo : option (gmap string value))
    (afterRecord beforeRecord : option CoreRecord) : value :=
  firstNonNil
    [ supplied requestInfo AuditLogFields.UserID;
      match afterRecord with
      | Some a => firstNonNil [Get a "user"; Get a "created_by"]
      | None => firstNonNil [fieldOf beforeRecord "user";
                             fieldOf beforeRecord "created_by"]
      end ].

(** Case-insensitive header lookup, stated on the headers themselves: the
    value of the header whose name is [name] up to letter case (the last
    one visited, should several names differ only in case). *)
Definition headerCI (headers : gmap string string) (name : string)
  : option string :=
  fold_left (fun found kv =>
               if String.eqb (ToLower kv.1) name then Some kv.2 else found)
            (map_to_list headers) None.

(** A header that is there and not empty. *)
Definition candidate (headers : gmap string string) (name : string)
  : option string :=
  match headerCI headers name with
  | Some v => if String.eqb v "" then None else Some v
  | None => None
  end.

(** The first comma-separated entry, trimmed. *)
Definition firstEntry (s : string) : string :=
  TrimSpace (hd "" (Split s comma)).

Fixpoint firstSome (cs : list (option string)) : option string :=
  match cs with
  | [] => None
  | Some v :: _ => Some v
  | None :: rest => firstSome rest
  end.

(** The precedence chain of the specification. *)
Definition ipChain (e : EventCaps) : string :=
  match capRealIP e with
  | Some ip => ip
  | None =>
      match capRequestInfo e with
      | Some (inr reqInfo) =>
          let h := Headers reqInfo in
          default "unknown"
            (firstSome [ candidate h "cf-connecting-ip";
                         firstEntry <$> candidate h "x-forwarded-for";
                         candidate h "x-real-ip";
                         candidate h "fly-client-ip" ])
      | _ => "unknown"
      end
  end.

(** main.go reads a header by its exact name; this is such a header when
    it is there and not empty. *)
Definition exactCandidate (headers : gmap string string) (name : string)
  : option string :=
  match headers !! name with
  | Some v => if String.eqb v "" then None else Some v
  | None => None
  end.

(** No two header names of the map differ only in letter case from
    [name]. *)
Definition caseUnique (headers : gmap string string) (name : string) : Prop :=
  forall k v, headers !! k = Some v -> ToLower k = ToLower name -> k = name.

(* ===================================================================== *)
(** ** Sample platforms, worlds and events *)
(* ===================================================================== *)

(** A platform on which every save and every serialisation succeeds. *)
Definition platformOK : Platform :=
  {| saveRecordErr := fun _ _ => None;
     saveCollectionErr := fun _ _ => None;
     marshalRecord := fun r => Some (Id r);
     marshalMap := fun s => Some s |}.

(** A platform whose storage refuses every save. *)
Definition platformNoSave : Platform :=
  {| saveRecordErr := fun _ _ => Some (ErrStorage "read-only");
     saveCollectionErr := fun _ _ => Some (ErrStorage "read-only");
     marshalRecord := fun r => Some (Id r);
     marshalMap := fun s => Some s |}.


(** A platform whose [Save] enforces the [Required] flags that the
    provisioner puts on the fields of the audit collection: a required
    text field must hold a non-empty string, a required select field one
    of its values, a required date field a time. *)
Definition validField (r : CoreRecord) (f : Field) : bool :=
  match f with
  | TextField name true =>
      match Get r name with
      | VStr s => negb (String.eqb s "")
      | _ => false
      end
  | SelectField name true values =>
      match Get r name with
      | VStr s => existsb (String.eqb s) values
      | _ => false
      end
  | DateField name true =>
      match Get r name with
      | VTime _ => true
      | _ => false
      end
  | _ => true
  end.

Definition validate (w : World) (r : CoreRecord) : option error :=
  match collections w !! recCollection r with
  | Some c =>
      if forallb (validField r) (Fields c) then None
      else Some (ErrStorage "validation failed")
  | None => None
  end.

Definition platformValidating : Platform :=
  {| saveRecordErr := validate;
     saveCollectionErr := fun _ _ => None;
     marshalRecord := fun r => Some (Id r);
     marshalMap := fun s => Some s |}.

Definition emptyWorld : World :=
  {| collections := ∅; records := []; clock := 0; console := [] |}.

(** The world after the audit collection has been provisioned. *)
Definition readyWorld : World :=
  {| collections := {[ "audit_logs" := auditCollectionDefinition "audit_logs" ]};
     records := []; clock := 1700000000; console := [] |}.

Definition widget : CoreRecord :=
  {| Id := "w1"; recCollection := "widgets";
     recData := {[ "name" := VStr "gear"; "user" := VStr "U1" ]} |}.

(** A record that names no user. *)
Definition anonymousWidget : CoreRecord :=
  {| Id := "w1"; recCollection := "widgets";
     recData := {[ "name" := VStr "cog" ]} |}.

(** A filter that lets everything through but lifecycle updates. *)
Definition noUpdates : string -> string -> bool :=
  fun _ eventType => negb (String.eqb eventType EventTypeUpdate).

Definition filteredOptions : Options :=
  {| CollectionName := "audit_logs";
     EnableStandardEvents := true;
     EnableRequestEvents := true;
     EnableAuthEvents := true;
     EventFilter := Some noUpdates;
     SchemaPath := "";
     CreateAuditCollection := true;
     FailOnSchemaError := false;
     LogToConsole := false |}.

(** An unauthenticated request to create [widget]. *)
Definition widgetRequest : RecordRequestEvent :=
  {| rqCollection := "widgets"; rqRecord := widget; rqRealIP := "10.0.0.7";
     rqRequestInfo := inr {| Method := "POST"; Context := "default";
                             Headers := ∅; Auth := None |} |}.

Definition cloudflareAndForwarded : gmap string string :=
  {[ "cf-connecting-ip" := "1.1.1.1"; "x-forwarded-for" := "2.2.2.2, 3.3.3.3" ]}.

Definition forwardedOnly : gmap string string :=
  {[ "x-forwarded-for" := "2.2.2.2, 3.3.3.3" ]}.

Definition mixedCaseHeaders : gmap string string :=
  {[ "CF-Connecting-IP" := "1.1.1.1"; "X-Forwarded-For" := "2.2.2.2, 3.3.3.3" ]}.

Definition headersEvent (headers : gmap string string) : EventCaps :=
  {| capRealIP := None;
     capRequestInfo :=
       Some (inr {| Method := "POST"; Context := "default";
                    Headers := headers; Auth := None |}) |}.

(* ===================================================================== *)
(** ** audit.go and the schema import: Setup *)
(* ===================================================================== *)

(** The errors of the start-up path: those of the storage calls, those of
    the host (the file system, the import, the platform's own bootstrap),
    and an error wrapped by [fmt.Errorf("...: %w", err)]. *)
Inductive setupError : Type :=
  | AppError (e : error)
  | HostError (msg : string)
  | Wrapped (context : string) (e : setupError).

(** The lines the start-up path writes itself.  They are kept on a list of
    their own; the lines of [ensureAuditCollection] stay on the console of
    the world. *)
Inductive SetupMsg : Type :=
  | MsgAuditMissingInSchema (name : string)
  | MsgImported (schemaPath : string)
  | MsgWarnAuditSetupFailed (e : error)
  | MsgWarnImportFailed (e : setupError)
  | MsgStandardHooksRegistered
  | MsgRequestHooksRegistered
  | MsgAuthHooksRegistered
  | MsgInitialized (name : string).

(** What the start-up path asks of the host besides storage:
    [os.ReadFile] and [app.ImportCollectionsByMarshaledJSON(data, false)],
    which answers with the collections after the import. *)
Record Host : Type := mkHost {
  readFile : string -> setupError + string;
  importCollections :
    gmap string Collection -> string -> setupError + gmap string Collection
}.

Definition withCollections (w : World) (cols : gmap string Collection)
  : World :=
  {| collections := cols; records := records w;
     clock := clock w; console := console w |}.

(** [importCollectionsFromFile] of the package. *)
Definition importCollectionsFromFile (P : Platform) (H : Host)
    (schemaPath collectionName : string) (w : World)
  : option setupError * World * list SetupMsg :=
  match readFile H schemaPath with
  | inl err => (Some (Wrapped "failed to read schema file" err), w, [])
  | inr schemaData =>
      match importCollections H (collections w) schemaData with
      | inl err => (Some (Wrapped "failed to import collections" err), w, [])
      | inr cols =>
          let w := withCollections w cols in
          match FindCollectionByNameOrId w collectionName with
          | inl _ =>
              match ensureAuditCollection P collectionName w with
              | (Some err, w) =>
                  (Some (Wrapped "failed to create audit logs collection"
                           (AppError err)),
                   w, [MsgAuditMissingInSchema collectionName])
              | (None, w) =>
                  (None, w, [MsgAuditMissingInSchema collectionName;
                             MsgImported schemaPath])
              end
          | inr _ => (None, w, [MsgImported schemaPath])
          end
      end
  end.

(** The seven registration points of the platform. *)
Inductive HookPoint : Type :=
  | PointAfterCreateSuccess
  | PointAfterUpdateSuccess
  | PointAfterDeleteSuccess
  | PointCreateRequest
  | PointUpdateRequest
  | PointDeleteRequest
  | PointAuthRequest.

Definition hookPoint_eqb (a b : HookPoint) : bool :=
  match a, b with
  | PointAfterCreateSuccess, PointAfterCreateSuccess
  | PointAfterUpdateSuccess, PointAfterUpdateSuccess
  | PointAfterDeleteSuccess, PointAfterDeleteSuccess
  | PointCreateRequest, PointCreateRequest
  | PointUpdateRequest, PointUpdateRequest
  | PointDeleteRequest, PointDeleteRequest
  | PointAuthRequest, PointAuthRequest => true
  | _, _ => false
  end.

(** A bound function is a closure over the logger, that is over its
    options; [BindFunc] adds it to the functions bound at a point. *)
Definition Bindings : Type := list (HookPoint * Options).

(** [setupStandardEventHooks], [setupRequestEventHooks] and
    [setupAuthEventHooks]: the functions they bind and the line they
    log. *)
Definition setupStandardEventHooks (options : Options)
  : Bindings * list SetupMsg :=
  ([ (PointAfterCreateSuccess, options);
     (PointAfterUpdateSuccess, options);
     (PointAfterDeleteSuccess, options) ],
   [MsgStandardHooksRegistered]).

Definition setupRequestEventHooks (options : Options)
  : Bindings * list SetupMsg :=
  ([ (PointCreateRequest, options);
     (PointUpdateRequest, options);
     (PointDeleteRequest, options) ],
   [MsgRequestHooksRegistered]).

Definition setupAuthEventHooks (options : Options)
  : Bindings * list SetupMsg :=
  ([ (PointAuthRequest, options) ], [MsgAuthHooksRegistered]).

(** The application after start-up: its world, the functions bound to its
    registration points, and the lines the start-up wrote. *)
Record Runtime : Type := mkRuntime {
  rtWorld : World;
  rtBindings : Bindings;
  rtLog : list SetupMsg
}.

(** "Register hooks based on options": the functions bound and the lines
    logged by the three set-up calls that the flags select. *)
Definition registerHooks (options : Options) : Bindings * list SetupMsg :=
  let '(b1, l1) :=
    if EnableStandardEvents options
    then setupStandardEventHooks options else ([], []) in
  let '(b2, l2) :=
    if EnableRequestEvents options
    then setupRequestEventHooks options else ([], []) in
  let '(b3, l3) :=
    if EnableAuthEvents options
    then setupAuthEventHooks options else ([], []) in
  (b1 ++ b2 ++ b3, l1 ++ l2 ++ l3).

(** The function [Setup] binds to [OnBootstrap], over the options that
    [Setup] has passed through [applyDefaultOptions]; [next] is what
    [e.Next()] returns. *)
Definition onBootstrap (P : Platform) (H : Host) (options : Options)
    (next : option setupError) (w : World) : option setupError * Runtime :=
  match next with
  | Some err => (Some err, mkRuntime w [] [])
  | None =>
    (* Create audit collection if needed *)
    let created :=
      if CreateAuditCollection options
      then ensureAuditCollection P (CollectionName options) w
      else (None, w) in
    match created with
    | (Some err, w) =>
        (Some (AppError err), mkRuntime w [] [MsgWarnAuditSetupFailed err])
    | (None, w) =>
      (* Initialize schema if path provided *)
      let imported :=
        if String.eqb (SchemaPath options) "" then (None, w, [])
        else importCollectionsFromFile P H (SchemaPath options)
               (CollectionName options) w in
      let '(importErr, w, log1) := imported in
      let log1 :=
        match importErr with
        | Some err => log1 ++ [MsgWarnImportFailed err]
        | None => log1
        end in
      match importErr, FailOnSchemaError options with
      | Some err, true => (Some err, mkRuntime w [] log1)
      | _, _ =>
        let '(bindings, log2) := registerHooks options in
        (None,
         mkRuntime w bindings
           (log1 ++ log2 ++ [MsgInitialized (CollectionName options)]))
      end
    end
  end.

(** [Setup]: it only binds the bootstrap function and returns nil; this is
    that function. *)
Definition Setup (P : Platform) (H : Host) (options : Options)
  : option setupError -> World -> option setupError * Runtime :=
  onBootstrap P H (applyDefaultOptions options).

(** The registration point an event arrives at. *)
Definition pointOf (ev : HookEvent) : HookPoint :=
  match ev with
  | AfterCreateSuccess _ => PointAfterCreateSuccess
  | AfterUpdateSuccess _ => PointAfterUpdateSuccess
  | AfterDeleteSuccess _ => PointAfterDeleteSuccess
  | CreateRequest _ => PointCreateRequest
  | UpdateRequest _ => PointUpdateRequest
  | DeleteRequest _ => PointDeleteRequest
  | AuthRequest _ => PointAuthRequest
  end.

(** The platform triggering an event: the function bound at its point
    runs; with nothing bound the event goes on. *)
Definition trigger (P : Platform) (bindings : Bindings) (ev : HookEvent)
    (w : World) : HookOutcome * World :=
  match List.find (fun b => hookPoint_eqb b.1 (pointOf ev)) bindings with
  | Some (_, options) => runHook P options ev w
  | None => (CallsNext, w)
  end.

(* ===================================================================== *)
(** ** main.go: the logger and the hooks of the stand-alone application *)
(* ===================================================================== *)

Definition AuditCollectionName : string := "audit_logs".

(** [logAuditEvent]: the steps of [logEvent] without the policy gate, on
    the fixed collection name, with the console line written always. *)
Definition logAuditEvent (P : Platform)
    (afterRecord beforeRecord : option CoreRecord)
    (collectionName eventType : string)
    (requestInfo : option (gmap string value)) (w : World)
  : option error * World :=
  match FindCollectionByNameOrId w AuditCollectionName with
  | inl err =>
      (Some err, addLog w [LogFindAuditFailed AuditCollectionName err])
  | inr auditCollection =>
      let '(auditRecord, logs) :=
        assembleEntry P (clock w) auditCollection afterRecord beforeRecord
          collectionName eventType requestInfo in
      let w := addLog w logs in
      match SaveRecord P w auditRecord with
      | (Some err, w) => (Some err, addLog w [LogSaveFailed err])
      | (None, w) =>
          (None, addLog w [LogAuditCreated eventType collectionName
                             (recordIdOf afterRecord beforeRecord)])
      end
  end.

(** The block the request and auth hooks of main.go repeat: everything,
    the address included, is stored only when [e.RequestInfo()]
    succeeds. *)
Definition mainRequestDetails (withAuth : bool) (reqInfo : error + RequestInfo)
    (requestInfo : gmap string value) : gmap string value * list LogMsg :=
  match reqInfo with
  | inl err => (requestInfo, [LogRequestInfoFailed err])
  | inr reqInfo =>
      let requestInfo :=
        <[AuditLogFields.RequestMethod := VStr (Method reqInfo)]> requestInfo in
      let clientIP := mainClientIP (Headers reqInfo) in
      let requestInfo :=
        <[AuditLogFields.RequestIP := VStr clientIP]> requestInfo in
      let requestInfo :=
        <[AuditLogFields.RequestURL := VStr (Context reqInfo)]> requestInfo in
      let requestInfo :=
        match withAuth, Auth reqInfo with
        | true, Some auth =>
            <[AuditLogFields.UserID := VStr (Id auth)]> requestInfo
        | _, _ => requestInfo
        end in
      (requestInfo, [])
  end.

Definition mainOnRecordAfterCreateSuccess (P : Platform) (e : RecordEvent)
    (w : World) : HookOutcome * World :=
  let collectionName := recCollection (evRecord e) in
  if String.eqb collectionName AuditCollectionName then (CallsNext, w)
  else
    let '(err, w) :=
      logAuditEvent P (Some (evRecord e)) None collectionName
        EventTypeCreate None w in
    (Returns err, w).

Definition mainOnRecordAfterUpdateSuccess (P : Platform) (e : RecordEvent)
    (w : World) : HookOutcome * World :=
  let collectionName := recCollection (evRecord e) in
  if String.eqb collectionName AuditCollectionName then (CallsNext, w)
  else
    let '(err, w) :=
      logAuditEvent P (Some (evRecord e)) None collectionName
        EventTypeUpdate None w in
    (Returns err, w).

Definition mainOnRecordAfterDeleteSuccess (P : Platform) (e : RecordEvent)
    (w : World) : HookOutcome * World :=
  let collectionName := recCollection (evRecord e) in
  if String.eqb collectionName AuditCollectionName then (CallsNext, w)
  else
    let '(err, w) :=
      logAuditEvent P None (Some (evRecord e)) collectionName
        EventTypeDelete None w in
    (Returns err, w).

Definition mainOnRecordCreateRequest (P : Platform) (e : RecordRequestEvent)
    (w : World) : HookOutcome * World :=
  if String.eqb (rqCollection e) AuditCollectionName then (CallsNext, w)
  else
    let '(requestInfo, logs) := mainRequestDetails true (rqRequestInfo e) ∅ in
    let w := addLog w logs in
    let w :=
      logAndDiscard EventTypeCreateReq
        (logAuditEvent P (Some (rqRecord e)) None (rqCollection e)
           EventTypeCreateReq (Some requestInfo) w) in
    (CallsNext, w).

Definition mainOnRecordUpdateRequest (P : Platform) (e : RecordRequestEvent)
    (w : World) : HookOutcome * World :=
  if String.eqb (rqCollection e) AuditCollectionName then (CallsNext, w)
  else
    let '(originalRecord, logs0) := loadOriginal w e in
    let w := addLog w logs0 in
    let '(requestInfo, logs) := mainRequestDetails true (rqRequestInfo e) ∅ in
    let w := addLog w logs in
    let w :=
      logAndDiscard EventTypeUpdateReq
        (logAuditEvent P (Some (rqRecord e)) originalRecord (rqCollection e)
           EventTypeUpdateReq (Some requestInfo) w) in
    (CallsNext, w).

Definition mainOnRecordDeleteRequest (P : Platform) (e : RecordRequestEvent)
    (w : World) : HookOutcome * World :=
  if String.eqb (rqCollection e) AuditCollectionName then (CallsNext, w)
  else
    let '(requestInfo, logs) := mainRequestDetails true (rqRequestInfo e) ∅ in
    let w := addLog w logs in
    let w :=
      logAndDiscard EventTypeDeleteReq
        (logAuditEvent P None (Some (rqRecord e)) (rqCollection e)
           EventTypeDeleteReq (Some requestInfo) w) in
    (CallsNext, w).

Definition mainOnRecordAuthRequest (P : Platform) (e : RecordAuthRequestEvent)
    (w : World) : HookOutcome * World :=
  let requestInfo : gmap string value := ∅ in
  let requestInfo :=
    <[AuditLogFields.AuthMethod := VStr (auAuthMethod e)]> requestInfo in
  let requestInfo :=
    match auRecord e with
    | Some r => <[AuditLogFields.UserID := VStr (Id r)]> requestInfo
    | None => requestInfo
    end in
  let '(requestInfo, logs) :=
    mainRequestDetails false (auRequestInfo e) requestInfo in
  let w := addLog w logs in
  match auRecord e with
  | None => (Panics, w)      (* e.Record.Collection() on a nil record *)
  | Some r =>
      let w :=
        logAndDiscard EventTypeAuth
          (logAuditEvent P (Some r) None (recCollection r)
             EventTypeAuth (Some requestInfo) w) in
      (CallsNext, w)
  end.

Definition mainRunHook (P : Platform) (ev : HookEvent) (w : World)
  : HookOutcome * World :=
  match ev with
  | AfterCreateSuccess e => mainOnRecordAfterCreateSuccess P e w
  | AfterUpdateSuccess e => mainOnRecordAfterUpdateSuccess P e w
  | AfterDeleteSuccess e => mainOnRecordAfterDeleteSuccess P e w
  | CreateRequest e => mainOnRecordCreateRequest P e w
  | UpdateRequest e => mainOnRecordUpdateRequest P e w
  | DeleteRequest e => mainOnRecordDeleteRequest P e w
  | AuthRequest e => mainOnRecordAuthRequest P e w
  end.

(* ===================================================================== *)
(** ** Further vocabulary and samples *)
(* ===================================================================== *)

Definition fieldName (f : Field) : string :=
  match f with
  | SelectField name _ _ | TextField name _ | DateField name _
  | AutodateField name _ _ => name
  end.

(** The names of the fields a collection declares, and of those it
    declares required. *)
Definition fieldNames (c : Collection) : list string :=
  map fieldName (Fields c).

Definition isRequired (f : Field) : bool :=
  match f with
  | SelectField _ required _ | TextField _ required | DateField _ required =>
      required
  | AutodateField _ _ _ => false
  end.

Definition requiredNames (c : Collection) : list string :=
  map fieldName (List.filter isRequired (Fields c)).

(** Is the event class of a registration point switched on. *)
Definition pointEnabled (options : Options) (pt : HookPoint) : bool :=
  match pt with
  | PointAfterCreateSuccess | PointAfterUpdateSuccess
  | PointAfterDeleteSuccess => EnableStandardEvents options
  | PointCreateRequest | PointUpdateRequest | PointDeleteRequest =>
      EnableRequestEvents options
  | PointAuthRequest => EnableAuthEvents options
  end.

(** The user a record names: its [user] field, else its [created_by]
    field, else nothing. *)
Definition recordUser (r : CoreRecord) : value :=
  firstNonNil [Get r "user"; Get r "created_by"].

(** The bytes of a string. *)
Definition bytesOf (s : string) : list ascii := list_ascii_of_string s.

(** An import that adds or replaces collections and deletes none, as the
    [deleteMissing = false] of the call asks. *)
Definition keepsCollections (H : Host) : Prop :=
  forall cols data cols' name,
    importCollections H cols data = inr cols' ->
    is_Some (cols !! name) -> is_Some (cols' !! name).

(** A platform whose [Save] accepts every record. *)
Definition acceptsRecords (P : Platform) : Prop :=
  forall w r, saveRecordErr P w r = None.

(** A host with one schema file, whose import adds a collection. *)
Definition postsCollection : Collection :=
  {| colName := "posts"; ListRule := None; ViewRule := None;
     CreateRule := None; UpdateRule := None; DeleteRule := None;
     Fields := [TextField "title" true]; Indexes := [] |}.

Definition sampleHost : Host :=
  {| readFile := fun path =>
       if String.eqb path "pb_schema.json" then inr "[posts]"
       else inl (HostError "no such file");
     importCollections := fun cols data =>
       if String.eqb data "[posts]"
       then inr (<["posts" := postsCollection]> cols)
       else inl (HostError "invalid schema") |}.

Definition schemaOptions : Options :=
  {| CollectionName := "";
     EnableStandardEvents := false;
     EnableRequestEvents := true;
     EnableAuthEvents := true;
     EventFilter := None;
     SchemaPath := "pb_schema.json";
     CreateAuditCollection := true;
     FailOnSchemaError := false;
     LogToConsole := false |}.

(** An authenticated request to delete [widget]. *)
Definition adminUser : CoreRecord :=
  {| Id := "u42"; recCollection := "users"; recData := ∅ |}.

Definition widgetDeleteRequest : RecordRequestEvent :=
  {| rqCollection := "widgets"; rqRecord := widget; rqRealIP := "10.0.0.7";
     rqRequestInfo := inr {| Method := "DELETE"; Context := "default";
                             Headers := forwardedOnly;
                             Auth := Some adminUser |} |}.

(* ===================================================================== *)
(** ** Records: reading what was set *)
(* ===================================================================== *)

Lemma Get_SetField_eq (r : CoreRecord) (k : string) (v : value) :
  Get (SetField r k v) k = v.
Proof. unfold Get, SetField; simpl. by rewrite lookup_insert_eq. Qed.

Lemma Get_SetField_ne (r : CoreRecord) (k k' : string) (v : value) :
  k <> k' -> Get (SetField r k v) k' = Get r k'.
Proof. intros Hne. unfold Get, SetField; simpl. by rewrite lookup_insert_ne. Qed.

Lemma addLog_nil (w : World) : addLog w [] = w.
Proof. destruct w. unfold addLog; simpl. by rewrite app_nil_r. Qed.

Lemma addLog_records (w : World) (msgs : list LogMsg) :
  records (addLog w msgs) = records w.
Proof. reflexivity. Qed.

Lemma addLog_collections (w : World) (msgs : list LogMsg) :
  collections (addLog w msgs) = collections w.
Proof. reflexivity. Qed.

(** The range loop over the request info is a left-biased union: every key
    of the map overrides what the entry held, the other keys stay. *)
Lemma fold_SetField_data (l : list (string * value)) (r : CoreRecord) :
  NoDup l.*1 ->
  recData (fold_left (fun r kv => SetField r kv.1 kv.2) l r)
  = list_to_map l ∪ recData r.
Proof.
  revert r. induction l as [|[k v] l IH]; intros r Hnd; simpl.
  - by rewrite (left_id_L ∅ (∪)).
  - apply NoDup_cons in Hnd as [Hk Hnd].
    rewrite IH by done. simpl.
    rewrite <- insert_union_l.
    rewrite <- insert_union_r; [done|].
    by apply not_elem_of_list_to_map_1.
Qed.

Lemma applyRequestInfo_data (info : gmap string value) (r : CoreRecord) :
  recData (applyRequestInfo (Some info) r) = info ∪ recData r.
Proof.
  unfold applyRequestInfo.
  rewrite fold_SetField_data by apply NoDup_fst_map_to_list.
  by rewrite list_to_map_to_list.
Qed.

Lemma Get_applyRequestInfo_kept (ri : option (gmap string value))
    (r : CoreRecord) (k : string) :
  leavesKey ri k -> Get (applyRequestInfo ri r) k = Get r k.
Proof.
  destruct ri as [info|]; cbn [leavesKey]; [|done].
  intros Hk. unfold Get. rewrite applyRequestInfo_data.
  by rewrite lookup_union_r.
Qed.

Lemma Get_applyRequestInfo_supplied (ri : option (gmap string value))
    (r : CoreRecord) (k : string) :
  supplied ri k <> VNil -> Get (applyRequestInfo ri r) k = supplied ri k.
Proof.
  destruct ri as [info|]; cbn [supplied]; [|done].
  unfold Get. rewrite applyRequestInfo_data.
  destruct (info !! k) as [v|] eqn:Hk; simpl; [|done].
  intros _. by rewrite (lookup_union_Some_l _ _ _ _ Hk).
Qed.

Lemma Get_applyRequestInfo_nil (ri : option (gmap string value))
    (r : CoreRecord) (k : string) :
  supplied ri k = VNil -> Get r k = VNil -> Get (applyRequestInfo ri r) k = VNil.
Proof.
  destruct ri as [info|]; cbn [supplied]; [|done].
  unfold Get. rewrite applyRequestInfo_data.
  destruct (info !! k) as [v|] eqn:Hk; simpl.
  - intros -> _. by rewrite (lookup_union_Some_l _ _ _ _ Hk).
  - intros _ Hr. by rewrite lookup_union_r.
Qed.

(* ===================================================================== *)
(** ** The assembled entry, field by field *)
(* ===================================================================== *)

(** Two field names of the audit collection are different strings. *)
Ltac keys_differ :=
  let H := fresh "Hkey" in intro H; cbv in H; discriminate H.

Lemma Get_userFromRecord_ne (x r : CoreRecord) (k : string) :
  k <> AuditLogFields.UserID -> Get (userFromRecord x r) k = Get r k.
Proof.
  intros Hk. unfold userFromRecord.
  repeat case_match; try done; by rewrite Get_SetField_ne.
Qed.

Lemma Get_resolveUserID_ne (a b : option CoreRecord) (r : CoreRecord)
    (k : string) :
  k <> AuditLogFields.UserID -> Get (resolveUserID a b r) k = Get r k.
Proof.
  intros Hk. unfold resolveUserID.
  repeat case_match; try done; by apply Get_userFromRecord_ne.
Qed.

Lemma Get_storeChanges_ne (P : Platform) (key : string) (m1 m2 : LogMsg)
    (x : option CoreRecord) (r : CoreRecord) (k : string) :
  k <> key -> Get (storeChanges P key m1 m2 x r).1 k = Get r k.
Proof.
  intros Hk. unfold storeChanges.
  repeat case_match; simpl; try done. by rewrite Get_SetField_ne.
Qed.

(** What [storeChanges] leaves under its own key. *)
Lemma Get_storeChanges_eq (P : Platform) (key : string) (m1 m2 : LogMsg)
    (x : option CoreRecord) (r : CoreRecord) :
  Get (storeChanges P key m1 m2 x r).1 key =
  match x with
  | Some rec =>
      match marshalRecord P rec with
      | Some dataJSON =>
          match marshalMap P dataJSON with
          | Some json => VStr json
          | None => Get r key
          end
      | None => Get r key
      end
  | None => Get r key
  end.
Proof.
  unfold storeChanges.
  repeat case_match; simpl; try done. by rewrite Get_SetField_eq.
Qed.

(** The entry as the composition of the steps of [logEvent]. *)
Lemma assembleEntry_entry (P : Platform) (now : Z) (col : Collection)
    (a b : option CoreRecord) (c t : string)
    (ri : option (gmap string value)) :
  (assembleEntry P now col a b c t ri).1 =
  (storeChanges P AuditLogFields.AfterChanges
     LogMarshalAfterRecordFailed LogMarshalAfterChangesFailed a
     (storeChanges P AuditLogFields.BeforeChanges
        LogMarshalBeforeRecordFailed LogMarshalBeforeChangesFailed b
        (resolveUserID a b
           (applyRequestInfo ri (basicEntry now col a b c t)))).1).1.
Proof.
  unfold assembleEntry.
  destruct (storeChanges P AuditLogFields.BeforeChanges _ _ b _) as [r1 l1].
  destruct (storeChanges P AuditLogFields.AfterChanges _ _ a _) as [r2 l2].
  reflexivity.
Qed.

Lemma Get_basicEntry_record_id (now : Z) (col : Collection)
    (a b : option CoreRecord) (c t : string) :
  Get (basicEntry now col a b c t) AuditLogFields.RecordID
  = VStr (recordIdOf a b).
Proof.
  unfold basicEntry.
  rewrite Get_SetField_ne by keys_differ. by rewrite Get_SetField_eq.
Qed.

Lemma Get_basicEntry_collection_name (now : Z) (col : Collection)
    (a b : option CoreRecord) (c t : string) :
  Get (basicEntry now col a b c t) AuditLogFields.CollectionName = VStr c.
Proof.
  unfold basicEntry.
  do 2 (rewrite Get_SetField_ne by keys_differ). by rewrite Get_SetField_eq.
Qed.

Lemma Get_basicEntry_event_type (now : Z) (col : Collection)
    (a b : option CoreRecord) (c t : string) :
  Get (basicEntry now col a b c t) AuditLogFields.EventType = VStr t.
Proof.
  unfold basicEntry.
  do 3 (rewrite Get_SetField_ne by keys_differ). by rewrite Get_SetField_eq.
Qed.

Lemma Get_basicEntry_other (now : Z) (col : Collection)
    (a b : option CoreRecord) (c t k : string) :
  k <> AuditLogFields.EventType -> k <> AuditLogFields.CollectionName ->
  k <> AuditLogFields.RecordID -> k <> AuditLogFields.Timestamp ->
  Get (basicEntry now col a b c t) k = VNil.
Proof.
  intros H1 H2 H3 H4. unfold basicEntry.
  do 4 (rewrite Get_SetField_ne by done). reflexivity.
Qed.

(** A key outside the three that the later steps write is read from the
    basic entry, unless the request info binds it. *)
Lemma Get_entry_kept (P : Platform) (now : Z) (col : Collection)
    (a b : option CoreRecord) (c t : string)
    (ri : option (gmap string value)) (k : string) :
  k <> AuditLogFields.UserID -> k <> AuditLogFields.BeforeChanges ->
  k <> AuditLogFields.AfterChanges -> leavesKey ri k ->
  Get (assembleEntry P now col a b c t ri).1 k
  = Get (basicEntry now col a b c t) k.
Proof.
  intros H1 H2 H3 Hri. rewrite assembleEntry_entry.
  rewrite !Get_storeChanges_ne by done.
  rewrite Get_resolveUserID_ne by done.
  by apply Get_applyRequestInfo_kept.
Qed.

Lemma Get_entry_before (P : Platform) (now : Z) (col : Collection)
    (a b : option CoreRecord) (c t : string)
    (ri : option (gmap string value)) :
  leavesKey ri AuditLogFields.BeforeChanges ->
  Get (assembleEntry P now col a b c t ri).1 AuditLogFields.BeforeChanges =
  match b with
  | Some rec =>
      match marshalRecord P rec with
      | Some dataJSON =>
          match marshalMap P dataJSON with
          | Some json => VStr json
          | None => VNil
          end
      | None => VNil
      end
  | None => VNil
  end.
Proof.
  intros Hri. rewrite assembleEntry_entry.
  rewrite Get_storeChanges_ne by keys_differ.
  rewrite Get_storeChanges_eq.
  rewrite Get_resolveUserID_ne by keys_differ.
  rewrite Get_applyRequestInfo_kept by done.
  rewrite Get_basicEntry_other by keys_differ.
  by repeat case_match.
Qed.

Lemma Get_entry_after (P : Platform) (now : Z) (col : Collection)
    (a b : option CoreRecord) (c t : string)
    (ri : option (gmap string value)) :
  leavesKey ri AuditLogFields.AfterChanges ->
  Get (assembleEntry P now col a b c t ri).1 AuditLogFields.AfterChanges =
  match a with
  | Some rec =>
      match marshalRecord P rec with
      | Some dataJSON =>
          match marshalMap P dataJSON with
          | Some json => VStr json
          | None => VNil
          end
      | None => VNil
      end
  | None => VNil
  end.
Proof.
  intros Hri. rewrite assembleEntry_entry.
  rewrite Get_storeChanges_eq.
  rewrite Get_storeChanges_ne by keys_differ.
  rewrite Get_resolveUserID_ne by keys_differ.
  rewrite Get_applyRequestInfo_kept by done.
  rewrite Get_basicEntry_other by keys_differ.
  by repeat case_match.
Qed.

Lemma Get_userFromRecord (x r : CoreRecord) :
  Get r AuditLogFields.UserID = VNil ->
  Get (userFromRecord x r) AuditLogFields.UserID
  = firstNonNil [Get x "user"; Get x "created_by"].
Proof.
  intros Hr. unfold userFromRecord; simpl.
  destruct (isNil (Get x "user")) eqn:Hu; simpl.
  - destruct (isNil (Get x "created_by")) eqn:Hc; simpl.
    + done.
    + by rewrite Get_SetField_eq.
  - by rewrite Get_SetField_eq.
Qed.

Lemma isNil_true (v : value) : isNil v = true <-> v = VNil.
Proof. by destruct v. Qed.

Lemma isNil_false (v : value) : isNil v = false <-> v <> VNil.
Proof. by destruct v. Qed.

Lemma firstNonNil_two (s v : value) :
  firstNonNil [s; v] = if isNil s then v else s.
Proof. by destruct s, v. Qed.

(* ===================================================================== *)
(** ** logEvent, path by path *)
(* ===================================================================== *)

Lemma shouldLogEvent_self (o : Options) (t : string) :
  shouldLogEvent o (CollectionName o) t = false.
Proof. unfold shouldLogEvent. by rewrite String.eqb_refl. Qed.

Lemma shouldLogEvent_true_ne (o : Options) (c t : string) :
  shouldLogEvent o c t = true -> c <> CollectionName o.
Proof.
  unfold shouldLogEvent. destruct (String.eqb_spec c (CollectionName o)); done.
Qed.

Lemma logEvent_skip (P : Platform) (o : Options) (a b : option CoreRecord)
    (c t : string) (ri : option (gmap string value)) (w : World) :
  shouldLogEvent o c t = false -> logEvent P o a b c t ri w = (None, w).
Proof. intros H. unfold logEvent. by rewrite H. Qed.

Lemma logEvent_missing (P : Platform) (o : Options) (a b : option CoreRecord)
    (c t : string) (ri : option (gmap string value)) (w : World) (err : error) :
  shouldLogEvent o c t = true ->
  FindCollectionByNameOrId w (CollectionName o) = inl err ->
  logEvent P o a b c t ri w
  = (Some err, addLog w [LogFindAuditFailed (CollectionName o) err]).
Proof. intros H Hf. unfold logEvent. by rewrite H, Hf. Qed.

(** Past the gate and the lookup, the outcome is the verdict of [Save] on
    the assembled entry. *)
Lemma logEvent_run (P : Platform) (o : Options) (a b : option CoreRecord)
    (c t : string) (ri : option (gmap string value)) (w : World)
    (col : Collection) :
  shouldLogEvent o c t = true ->
  FindCollectionByNameOrId w (CollectionName o) = inr col ->
  let E := (assembleEntry P (clock w) col a b c t ri).1 in
  let logs := (assembleEntry P (clock w) col a b c t ri).2 in
  logEvent P o a b c t ri w =
  match saveRecordErr P (addLog w logs) E with
  | Some err => (Some err, addLog (addLog w logs) [LogSaveFailed err])
  | None =>
      let w' := {| collections := collections w;
                   records := records w ++ [E];
                   clock := clock w;
                   console := console w ++ logs |} in
      if LogToConsole o
      then (None, addLog w' [LogAuditCreated t c (recordIdOf a b)])
      else (None, w')
  end.
Proof.
  intros H Hf. unfold logEvent. rewrite H, Hf. simpl.
  destruct (assembleEntry P (clock w) col a b c t ri) as [E logs]. simpl.
  unfold SaveRecord.
  destruct (saveRecordErr P (addLog w logs) E); [done|].
  by destruct (LogToConsole o).
Qed.

(** Every call either leaves the stored records as they are or appends
    exactly the assembled entry. *)
Lemma logEvent_records (P : Platform) (o : Options) (a b : option CoreRecord)
    (c t : string) (ri : option (gmap string value)) (w : World) :
  records (logEvent P o a b c t ri w).2 = records w \/
  exists col,
    shouldLogEvent o c t = true /\
    FindCollectionByNameOrId w (CollectionName o) = inr col /\
    (logEvent P o a b c t ri w).1 = None /\
    records (logEvent P o a b c t ri w).2
    = records w ++ [(assembleEntry P (clock w) col a b c t ri).1].
Proof.
  destruct (shouldLogEvent o c t) eqn:Hg.
  - destruct (FindCollectionByNameOrId w (CollectionName o)) as [err|col] eqn:Hf.
    + left. by rewrite (logEvent_missing _ _ _ _ _ _ _ _ _ Hg Hf).
    + rewrite (logEvent_run P o a b c t ri w col Hg Hf). cbv zeta.
      destruct (saveRecordErr P _ _); [by left|].
      right. exists col. by destruct (LogToConsole o).
  - left. by rewrite logEvent_skip.
Qed.

Lemma logEvent_collections (P : Platform) (o : Options) (a b : option CoreRecord)
    (c t : string) (ri : option (gmap string value)) (w : World) :
  collections (logEvent P o a b c t ri w).2 = collections w.
Proof.
  destruct (shouldLogEvent o c t) eqn:Hg.
  - destruct (FindCollectionByNameOrId w (CollectionName o)) as [err|col] eqn:Hf.
    + by rewrite (logEvent_missing _ _ _ _ _ _ _ _ _ Hg Hf).
    + rewrite (logEvent_run P o a b c t ri w col Hg Hf). cbv zeta.
      destruct (saveRecordErr P _ _); [done|]. by destruct (LogToConsole o).
  - by rewrite logEvent_skip.
Qed.

(* ===================================================================== *)
(** ** The hooks: what reaches logEvent *)
(* ===================================================================== *)

(** On a request event [extractIP] answers with [RealIP()]: the two copies
    of the hooks store the same address. *)
Lemma extractIP_request (e : RecordRequestEvent) :
  extractIP (capsOfRequest e) = (rqRealIP e, []).
Proof. reflexivity. Qed.

Lemma extractIP_auth (e : RecordAuthRequestEvent) :
  extractIP (capsOfAuth e) = (auRealIP e, []).
Proof. reflexivity. Qed.

Lemma addRequestDetails_other (withAuth : bool) (x : error + RequestInfo)
    (m : gmap string value) (k : string) :
  k ∉ requestKeys -> (addRequestDetails withAuth x m).1 !! k = m !! k.
Proof.
  intros Hk. unfold requestKeys in Hk.
  rewrite !not_elem_of_cons in Hk. destruct Hk as (H1 & H2 & H3 & H4 & H5 & _).
  unfold addRequestDetails. destruct x as [err|reqInfo]; simpl; [done|].
  destruct withAuth, (Auth reqInfo); by rewrite ?lookup_insert_ne.
Qed.

Lemma requestInfoOf_other (e : RecordRequestEvent) (k : string) :
  k ∉ requestKeys -> (requestInfoOf e).1 !! k = None.
Proof.
  intros Hk. unfold requestInfoOf. rewrite extractIP_request.
  pose proof (addRequestDetails_other true (rqRequestInfo e)
                (<[AuditLogFields.RequestIP := VStr (rqRealIP e)]> ∅) k Hk) as H.
  destruct (addRequestDetails _ _ _) as [m l]; simpl in *. rewrite H.
  unfold requestKeys in Hk. rewrite !not_elem_of_cons in Hk.
  destruct Hk as (H1 & _). by rewrite lookup_insert_ne.
Qed.

Lemma authRequestInfoOf_other (e : RecordAuthRequestEvent) (k : string) :
  k ∉ requestKeys -> (authRequestInfoOf e).1 !! k = None.
Proof.
  intros Hk. unfold authRequestInfoOf. rewrite extractIP_auth.
  match goal with
  | |- context [addRequestDetails false ?x ?m] =>
      pose proof (addRequestDetails_other false x m k Hk) as H;
      destruct (addRequestDetails false x m) as [m' l]
  end.
  simpl in *. rewrite H.
  unfold requestKeys in Hk. rewrite !not_elem_of_cons in Hk.
  destruct Hk as (H1 & H2 & H3 & H4 & H5 & _).
  destruct (auRecord e); by rewrite ?lookup_insert_ne.
Qed.

(** No hook binds a key outside [requestKeys]: the event type, the
    collection name, the record id and the two snapshots of an entry are
    never overridden by request information. *)
Lemma hookRequestInfo_leaves (ev : HookEvent) (k : string) :
  k ∉ requestKeys -> leavesKey (hookRequestInfo ev) k.
Proof.
  intros Hk.
  destruct ev; simpl; auto using requestInfoOf_other, authRequestInfoOf_other.
Qed.

Lemma logAndDiscard_records (t : string) (r : option error * World) :
  records (logAndDiscard t r) = records r.2.
Proof. by destruct r as [[err|] w]. Qed.

Lemma logAndDiscard_collections (t : string) (r : option error * World) :
  collections (logAndDiscard t r) = collections r.2.
Proof. by destruct r as [[err|] w]. Qed.

(** A hook leaves the stored records as they are, or appends the one entry
    that [logEvent] assembles from what the hook passes. *)
Lemma runHook_records (P : Platform) (o : Options) (ev : HookEvent) (w : World) :
  records (runHook P o ev w).2 = records w \/
  exists col c,
    hookCollection ev = Some c /\
    shouldLogEvent o c (hookEventType ev) = true /\
    FindCollectionByNameOrId w (CollectionName o) = inr col /\
    records (runHook P o ev w).2
    = records w ++
      [(assembleEntry P (clock w) col (hookAfter ev) (hookBefore w ev) c
          (hookEventType ev) (hookRequestInfo ev)).1].
Proof.
  destruct ev as [e|e|e|e|e|e|e]; simpl.
  - unfold onRecordAfterCreateSuccess.
    destruct (String.eqb _ _); [by left|].
    pose proof (logEvent_records P o (Some (evRecord e)) None
                  (recCollection (evRecord e)) EventTypeCreate None w) as H.
    destruct (logEvent _ _ _ _ _ _ _ _) as [err w']; simpl in *.
    destruct H as [H|(col & Hg & Hf & _ & H)]; [by left|].
    right. by exists col, (recCollection (evRecord e)).
  - unfold onRecordAfterUpdateSuccess.
    destruct (String.eqb _ _); [by left|].
    pose proof (logEvent_records P o (Some (evRecord e)) None
                  (recCollection (evRecord e)) EventTypeUpdate None w) as H.
    destruct (logEvent _ _ _ _ _ _ _ _) as [err w']; simpl in *.
    destruct H as [H|(col & Hg & Hf & _ & H)]; [by left|].
    right. by exists col, (recCollection (evRecord e)).
  - unfold onRecordAfterDeleteSuccess.
    destruct (String.eqb _ _); [by left|].
    pose proof (logEvent_records P o None (Some (evRecord e))
                  (recCollection (evRecord e)) EventTypeDelete None w) as H.
    destruct (logEvent _ _ _ _ _ _ _ _) as [err w']; simpl in *.
    destruct H as [H|(col & Hg & Hf & _ & H)]; [by left|].
    right. by exists col, (recCollection (evRecord e)).
  - unfold onRecordCreateRequest.
    destruct (String.eqb _ _); [by left|].
    destruct (requestInfoOf e) as [info logs]; simpl.
    rewrite logAndDiscard_records.
    destruct (logEvent_records P o (Some (rqRecord e)) None (rqCollection e)
                EventTypeCreateReq (Some info) (addLog w logs))
      as [H|(col & Hg & Hf & _ & H)]; [by left|].
    right. by exists col, (rqCollection e).
  - unfold onRecordUpdateRequest.
    destruct (String.eqb _ _); [by left|].
    destruct (loadOriginal w e) as [orig logs0]; simpl.
    destruct (requestInfoOf e) as [info logs]; simpl.
    rewrite logAndDiscard_records.
    destruct (logEvent_records P o (Some (rqRecord e)) orig (rqCollection e)
                EventTypeUpdateReq (Some info) (addLog (addLog w logs0) logs))
      as [H|(col & Hg & Hf & _ & H)]; [by left|].
    right. by exists col, (rqCollection e).
  - unfold onRecordDeleteRequest.
    destruct (String.eqb _ _); [by left|].
    destruct (requestInfoOf e) as [info logs]; simpl.
    rewrite logAndDiscard_records.
    destruct (logEvent_records P o None (Some (rqRecord e)) (rqCollection e)
                EventTypeDeleteReq (Some info) (addLog w logs))
      as [H|(col & Hg & Hf & _ & H)]; [by left|].
    right. by exists col, (rqCollection e).
  - unfold onRecordAuthRequest.
    destruct (authRequestInfoOf e) as [info logs]; simpl.
    destruct (auRecord e) as [r|]; simpl; [|by left].
    rewrite logAndDiscard_records.
    destruct (logEvent_records P o (Some r) None (recCollection r)
                EventTypeAuth (Some info) (addLog w logs))
      as [H|(col & Hg & Hf & _ & H)]; [by left|].
    right. by exists col, (recCollection r).
Qed.

Ltac not_request_key :=
  unfold requestKeys; rewrite !not_elem_of_cons;
  repeat split; try keys_differ; apply not_elem_of_nil.

(** The entry a hook appends names the observed collection, and that is
    not the audit collection. *)
Lemma runHook_entry_collection (P : Platform) (o : Options) (ev : HookEvent)
    (w : World) (E : CoreRecord) :
  records (runHook P o ev w).2 = records w ++ [E] ->
  exists c, Get E AuditLogFields.CollectionName = VStr c /\
            c <> CollectionName o.
Proof.
  intros HE.
  destruct (runHook_records P o ev w) as [H|(col & c & Hc & Hg & Hf & H)].
  - rewrite H in HE. symmetry in HE.
    apply (f_equal length) in HE. rewrite length_app in HE. simpl in HE. lia.
  - rewrite H in HE. apply app_inv_head in HE. injection HE as <-.
    exists c. split; [|by eapply shouldLogEvent_true_ne].
    rewrite Get_entry_kept; try keys_differ.
    + apply Get_basicEntry_collection_name.
    + apply hookRequestInfo_leaves. not_request_key.
Qed.

(** A run of hooks only appends to the stored records, and none of the
    appended entries names the audit collection. *)
Lemma runHooks_added (P : Platform) (o : Options) (evs : list HookEvent)
    (w : World) :
  exists added,
    records (runHooks P o evs w) = records w ++ added /\
    Forall (fun E => Get E AuditLogFields.CollectionName
                     <> VStr (CollectionName o)) added.
Proof.
  revert w. induction evs as [|ev evs IH]; intros w; simpl.
  - exists []. by rewrite app_nil_r.
  - destruct (IH (runHook P o ev w).2) as (added & Hadd & Hall).
    unfold runHooks in *. simpl. rewrite Hadd.
    destruct (runHook_records P o ev w) as [H|(col & c & Hc & Hg & Hf & H)].
    + rewrite H. by exists added.
    + destruct (runHook_entry_collection P o ev w _ H) as (c' & Hget & Hne).
      rewrite H, <- app_assoc. eexists; split; [reflexivity|].
      constructor; [|done]. rewrite Hget. congruence.
Qed.

(* ===================================================================== *)
(** ** Properties of the logger *)
(* ===================================================================== *)

(** C1, self-exclusion.  A call to [logEvent] whose collection name is the
    configured audit-collection name returns success and changes nothing:
    no entry is produced, whatever the event type, the records passed, the
    request information and the configured filter.  Hence, over any run of
    the seven hooks, the records only grow by entries whose
    [collection_name] is not the audit-collection name. *)
Theorem self_exclusion :
  (forall (P : Platform) (o : Options) (a b : option CoreRecord) (t : string)
          (ri : option (gmap string value)) (w : World),
      logEvent P o a b (CollectionName o) t ri w = (None, w)) /\
  (forall (P : Platform) (o : Options) (evs : list HookEvent) (w : World),
      exists added,
        records (runHooks P o evs w) = records w ++ added /\
        Forall (fun E => Get E AuditLogFields.CollectionName
                         <> VStr (CollectionName o)) added).
Proof.
  split.
  - intros. apply logEvent_skip, shouldLogEvent_self.
  - intros. apply runHooks_added.
Qed.

(** C8, missing destination collection.  When a call passes the policy
    gate and the lookup of the configured audit collection fails,
    [logEvent] logs the failure and returns that very error; the
    collections and the stored records are what they were: nothing is
    created, nothing is persisted. *)
Theorem missing_collection_is_hard_error (P : Platform) (o : Options)
    (a b : option CoreRecord) (c t : string)
    (ri : option (gmap string value)) (w : World) (err : error) :
  shouldLogEvent o c t = true ->
  FindCollectionByNameOrId w (CollectionName o) = inl err ->
  logEvent P o a b c t ri w
    = (Some err, addLog w [LogFindAuditFailed (CollectionName o) err]) /\
  collections (logEvent P o a b c t ri w).2 = collections w /\
  records (logEvent P o a b c t ri w).2 = records w.
Proof.
  intros Hg Hf. rewrite (logEvent_missing _ _ _ _ _ _ _ _ _ Hg Hf).
  by repeat split.
Qed.

Lemma missing_collection_witness :
  logEvent platformOK DefaultOptions (Some widget) None "widgets"
      EventTypeCreate None emptyWorld
    = (Some (ErrCollectionNotFound "audit_logs"),
       addLog emptyWorld
         [LogFindAuditFailed "audit_logs" (ErrCollectionNotFound "audit_logs")])
  /\ collections (logEvent platformOK DefaultOptions (Some widget) None
                    "widgets" EventTypeCreate None emptyWorld).2
     = collections emptyWorld
  /\ records (logEvent platformOK DefaultOptions (Some widget) None
                "widgets" EventTypeCreate None emptyWorld).2
     = records emptyWorld.
Proof.
  apply (missing_collection_is_hard_error platformOK DefaultOptions
           (Some widget) None "widgets" EventTypeCreate None emptyWorld
           (ErrCollectionNotFound "audit_logs")).
  - reflexivity.
  - reflexivity.
Defined.

(** The one entry a successful hook appends is the assembled one. *)
Lemma runHook_entry (P : Platform) (o : Options) (ev : HookEvent)
    (w : World) (E : CoreRecord) :
  records (runHook P o ev w).2 = records w ++ [E] ->
  exists col c,
    hookCollection ev = Some c /\
    E = (assembleEntry P (clock w) col (hookAfter ev) (hookBefore w ev) c
           (hookEventType ev) (hookRequestInfo ev)).1.
Proof.
  intros HE.
  destruct (runHook_records P o ev w) as [H|(col & c & Hc & Hg & Hf & H)].
  - rewrite H in HE. symmetry in HE.
    apply (f_equal length) in HE. rewrite length_app in HE. simpl in HE. lia.
  - rewrite H in HE. apply app_inv_head in HE. injection HE as <-.
    by exists col, c.
Qed.

(** C9, record-id derivation.  In every assembled entry whose request
    information does not itself carry a [record_id] key, [record_id] is the
    id of the after-record when there is one, and otherwise the id of the
    before-record.  No hook puts a [record_id] key into the request
    information, so this holds of every entry assembled from what a hook
    passes, and of every entry a hook appends. *)
Theorem record_id_derivation :
  (forall (P : Platform) (now : Z) (col : Collection)
          (a b : option CoreRecord) (c t : string)
          (ri : option (gmap string value)),
      leavesKey ri AuditLogFields.RecordID ->
      a <> None \/ b <> None ->
      let E := (assembleEntry P now col a b c t ri).1 in
      (forall x, a = Some x -> Get E AuditLogFields.RecordID = VStr (Id x)) /\
      (forall y, a = None -> b = Some y ->
                 Get E AuditLogFields.RecordID = VStr (Id y))) /\
  (forall (P : Platform) (o : Options) (ev : HookEvent) (w : World)
          (E : CoreRecord),
      records (runHook P o ev w).2 = records w ++ [E] ->
      (forall x, hookAfter ev = Some x ->
                 Get E AuditLogFields.RecordID = VStr (Id x)) /\
      (forall y, hookAfter ev = None -> hookBefore w ev = Some y ->
                 Get E AuditLogFields.RecordID = VStr (Id y))) /\
  (forall (P : Platform) (now : Z) (col : Collection) (ev : HookEvent)
          (w : World) (c : string),
      let E := (assembleEntry P now col (hookAfter ev) (hookBefore w ev) c
                  (hookEventType ev) (hookRequestInfo ev)).1 in
      Get E AuditLogFields.RecordID
      = VStr (match hookAfter ev, hookBefore w ev with
              | Some x, _ => Id x
              | None, Some y => Id y
              | None, None => ""
              end)).
Proof.
  assert (Hmain : forall P now col a b c t ri,
    leavesKey ri AuditLogFields.RecordID ->
    let E := (assembleEntry P now col a b c t ri).1 in
    (forall x, a = Some x -> Get E AuditLogFields.RecordID = VStr (Id x)) /\
    (forall y, a = None -> b = Some y ->
               Get E AuditLogFields.RecordID = VStr (Id y))).
  { intros P now col a b c t ri Hri E. subst E.
    rewrite Get_entry_kept by (done || keys_differ).
    rewrite Get_basicEntry_record_id.
    split.
    - by intros x ->.
    - by intros y -> ->. }
  split; [|split].
  - intros P now col a b c t ri Hri _. by apply Hmain.
  - intros P o ev w E HE.
    destruct (runHook_entry P o ev w E HE) as (col & c & _ & ->).
    apply Hmain, hookRequestInfo_leaves. not_request_key.
  - intros P now col ev w c E. subst E.
    rewrite Get_entry_kept; try keys_differ.
    + by rewrite Get_basicEntry_record_id.
    + apply hookRequestInfo_leaves. not_request_key.
Qed.

Lemma record_id_derivation_witness :
  Get (assembleEntry platformOK 0 (auditCollectionDefinition "audit_logs")
         None (Some widget) "widgets" EventTypeDelete None).1
      AuditLogFields.RecordID = VStr "w1".
Proof.
  refine (proj2 (proj1 record_id_derivation platformOK 0%Z
                   (auditCollectionDefinition "audit_logs")
                   None (Some widget) "widgets" EventTypeDelete None _ _)
                widget _ _).
  - exact I.
  - right. discriminate.
  - reflexivity.
  - reflexivity.
Defined.

(** C10 as the specification words it fails: on a platform whose [Save]
    enforces the required fields of the audit collection, the entry of an
    ordinary create is persisted, and a call with neither record returns
    the error of [Save] and persists nothing, for its [record_id] is
    empty. *)
Lemma nil_records_entry_refused :
  (logEvent platformValidating DefaultOptions (Some widget) None "widgets"
     EventTypeCreate None readyWorld).1 = None /\
  length (records (logEvent platformValidating DefaultOptions (Some widget)
                     None "widgets" EventTypeCreate None readyWorld).2) = 1 /\
  shouldLogEvent DefaultOptions "widgets" EventTypeCreate = true /\
  (logEvent platformValidating DefaultOptions None None "widgets"
     EventTypeCreate None readyWorld).1
  = Some (ErrStorage "validation failed") /\
  records (logEvent platformValidating DefaultOptions None None "widgets"
             EventTypeCreate None readyWorld).2 = [].
Proof. repeat split; vm_compute; reflexivity. Qed.

(** C10, both records nil, amended.  A call that passes the policy gate
    with neither an after-record nor a before-record is not turned away by
    [logEvent] itself: once the audit collection is found, the entry handed
    to [Save] has the empty string as [record_id] and neither
    [before_changes] nor [after_changes]; it is persisted when [Save]
    accepts it, and when [Save] refuses it nothing is persisted and the
    error of [Save] is returned.  (The request information is taken not to
    carry one of the three keys; no hook puts them there.) *)
Theorem both_records_nil (P : Platform) (o : Options) (c t : string)
    (ri : option (gmap string value)) (w : World) (col : Collection) :
  shouldLogEvent o c t = true ->
  FindCollectionByNameOrId w (CollectionName o) = inr col ->
  leavesKey ri AuditLogFields.RecordID ->
  leavesKey ri AuditLogFields.BeforeChanges ->
  leavesKey ri AuditLogFields.AfterChanges ->
  exists E,
    Get E AuditLogFields.RecordID = VStr "" /\
    absent E AuditLogFields.BeforeChanges /\
    absent E AuditLogFields.AfterChanges /\
    (saveRecordErr P w E = None ->
       (logEvent P o None None c t ri w).1 = None /\
       records (logEvent P o None None c t ri w).2 = records w ++ [E]) /\
    (forall err, saveRecordErr P w E = Some err ->
       (logEvent P o None None c t ri w).1 = Some err /\
       records (logEvent P o None None c t ri w).2 = records w).
Proof.
  intros Hg Hf H1 H2 H3.
  exists (assembleEntry P (clock w) col None None c t ri).1.
  split; [|split; [|split]].
  - rewrite Get_entry_kept by (done || keys_differ).
    by rewrite Get_basicEntry_record_id.
  - unfold absent. by rewrite Get_entry_before.
  - unfold absent. by rewrite Get_entry_after.
  - rewrite (logEvent_run P o None None c t ri w col Hg Hf). cbv zeta.
    assert (Hlogs : (assembleEntry P (clock w) col None None c t ri).2 = []).
    { unfold assembleEntry. simpl. reflexivity. }
    rewrite Hlogs, addLog_nil.
    split.
    + intros ->. by destruct (LogToConsole o).
    + by intros err ->.
Qed.

Lemma both_records_nil_witness :
  exists E,
    Get E AuditLogFields.RecordID = VStr "" /\
    absent E AuditLogFields.BeforeChanges /\
    absent E AuditLogFields.AfterChanges /\
    (saveRecordErr platformOK readyWorld E = None ->
       (logEvent platformOK DefaultOptions None None "widgets"
          EventTypeCreate None readyWorld).1 = None /\
       records (logEvent platformOK DefaultOptions None None "widgets"
                  EventTypeCreate None readyWorld).2
       = records readyWorld ++ [E]) /\
    (forall err, saveRecordErr platformOK readyWorld E = Some err ->
       (logEvent platformOK DefaultOptions None None "widgets"
          EventTypeCreate None readyWorld).1 = Some err /\
       records (logEvent platformOK DefaultOptions None None "widgets"
                  EventTypeCreate None readyWorld).2
       = records readyWorld).
Proof.
  apply (both_records_nil platformOK DefaultOptions "widgets" EventTypeCreate
           None readyWorld (auditCollectionDefinition "audit_logs")).
  - reflexivity.
  - reflexivity.
  - exact I.
  - exact I.
  - exact I.
Defined.

(** C4 as the specification words it fails: the filter answers true, the
    audit collection is missing, and the call produces no entry. *)
Lemma filter_true_without_entry :
  noUpdates "widgets" EventTypeCreate = true /\
  (logEvent platformOK filteredOptions (Some widget) None "widgets"
     EventTypeCreate None emptyWorld).1
  = Some (ErrCollectionNotFound "audit_logs") /\
  records (logEvent platformOK filteredOptions (Some widget) None "widgets"
             EventTypeCreate None emptyWorld).2 = [].
Proof. repeat split; vm_compute; reflexivity. Qed.

(** C4, filter predicate authority, amended.  On a collection other than
    the audit collection and with a filter configured: when the filter
    answers false the call is a silent no-op (success, the world
    unchanged); when it answers true the call goes through the pipeline
    and appends exactly one entry, the assembled one, if the audit
    collection is found and [Save] accepts the entry, and none if the
    lookup or the save fails, the error being returned; in no case does it
    append more than one. *)
Theorem filter_predicate_authority (P : Platform) (o : Options)
    (a b : option CoreRecord) (c t : string)
    (ri : option (gmap string value)) (w : World)
    (filter : string -> string -> bool) :
  c <> CollectionName o ->
  EventFilter o = Some filter ->
  (filter c t = false -> logEvent P o a b c t ri w = (None, w)) /\
  (filter c t = true ->
     forall col,
       FindCollectionByNameOrId w (CollectionName o) = inr col ->
       let E := (assembleEntry P (clock w) col a b c t ri).1 in
       let logs := (assembleEntry P (clock w) col a b c t ri).2 in
       (saveRecordErr P (addLog w logs) E = None ->
          (logEvent P o a b c t ri w).1 = None /\
          records (logEvent P o a b c t ri w).2 = records w ++ [E]) /\
       (forall err, saveRecordErr P (addLog w logs) E = Some err ->
          (logEvent P o a b c t ri w).1 = Some err /\
          records (logEvent P o a b c t ri w).2 = records w)) /\
  (filter c t = true ->
     forall err,
       FindCollectionByNameOrId w (CollectionName o) = inl err ->
       (logEvent P o a b c t ri w).1 = Some err /\
       records (logEvent P o a b c t ri w).2 = records w) /\
  (records (logEvent P o a b c t ri w).2 = records w \/
   exists E, records (logEvent P o a b c t ri w).2 = records w ++ [E]).
Proof.
  intros Hc Hf.
  assert (Hgate : shouldLogEvent o c t = filter c t).
  { unfold shouldLogEvent. rewrite Hf.
    by destruct (String.eqb_spec c (CollectionName o)). }
  split; [|split; [|split]].
  - intros Hno. apply logEvent_skip. by rewrite Hgate.
  - intros Hyes col Hcol E logs.
    rewrite Hyes in Hgate.
    rewrite (logEvent_run P o a b c t ri w col Hgate Hcol). cbv zeta.
    subst E logs. split.
    + intros ->. by destruct (LogToConsole o).
    + by intros err ->.
  - intros Hyes err Herr. rewrite Hyes in Hgate.
    by rewrite (logEvent_missing _ _ _ _ _ _ _ _ _ Hgate Herr).
  - destruct (logEvent_records P o a b c t ri w) as [H|(col & _ & _ & _ & H)].
    + by left.
    + right. eauto.
Qed.

Lemma filter_predicate_authority_witness :
  (* the filter refuses lifecycle updates ... *)
  logEvent platformOK filteredOptions (Some widget) None "widgets"
    EventTypeUpdate None readyWorld = (None, readyWorld) /\
  (* ... and lets a create through *)
  (logEvent platformOK filteredOptions (Some widget) None "widgets"
     EventTypeCreate None readyWorld).1 = None /\
  records (logEvent platformOK filteredOptions (Some widget) None "widgets"
             EventTypeCreate None readyWorld).2
  = records readyWorld ++
    [(assembleEntry platformOK (clock readyWorld)
        (auditCollectionDefinition "audit_logs") (Some widget) None
        "widgets" EventTypeCreate None).1].
Proof.
  split.
  - refine (proj1 (filter_predicate_authority platformOK filteredOptions
                     (Some widget) None "widgets" EventTypeUpdate None
                     readyWorld noUpdates _ _) _).
    + discriminate.
    + reflexivity.
    + reflexivity.
  - refine (proj1 (proj1 (proj2 (filter_predicate_authority platformOK
                     filteredOptions (Some widget) None "widgets"
                     EventTypeCreate None readyWorld noUpdates _ _)) _
                  (auditCollectionDefinition "audit_logs") _) _).
    + discriminate.
    + reflexivity.
    + reflexivity.
    + reflexivity.
    + reflexivity.
Defined.

(** The default policy, no filter configured: everything but the audit
    collection passes the gate. *)
Lemma default_policy (o : Options) (c t : string) :
  EventFilter o = None ->
  shouldLogEvent o c t = negb (String.eqb c (CollectionName o)).
Proof.
  intros Hf. unfold shouldLogEvent. rewrite Hf.
  by destruct (String.eqb c (CollectionName o)).
Qed.

(** C5 as the specification words it fails: the request's record names no
    user, the stored record does, and the entry has no user id, where the
    flat chain yields the stored record's user. *)
Lemma user_id_flat_chain_fails :
  let E := (assembleEntry platformOK 0
              (auditCollectionDefinition "audit_logs")
              (Some anonymousWidget) (Some widget) "widgets"
              EventTypeUpdateReq None).1 in
  Get E AuditLogFields.UserID = VNil /\
  userIdFlatChain None (Some anonymousWidget) (Some widget) = VStr "U1" /\
  Get E AuditLogFields.UserID
  <> userIdFlatChain None (Some anonymousWidget) (Some widget).
Proof.
  cbv zeta. split; [|split].
  - vm_compute. reflexivity.
  - vm_compute. reflexivity.
  - vm_compute. discriminate.
Qed.

(** C5, user-id resolution precedence, amended.  In every assembled entry
    [user_id] is the non-nil value the request information supplies, if
    any; otherwise, when there is an after-record, its [user] field, else
    its [created_by] field, else nothing; and only when there is no
    after-record, the before-record's [user] field, else its [created_by]
    field, else nothing. *)
Theorem user_id_resolution (P : Platform) (now : Z) (col : Collection)
    (a b : option CoreRecord) (c t : string)
    (ri : option (gmap string value)) :
  Get (assembleEntry P now col a b c t ri).1 AuditLogFields.UserID
  = userIdNestedChain ri a b.
Proof.
  rewrite assembleEntry_entry.
  rewrite !Get_storeChanges_ne by keys_differ.
  unfold userIdNestedChain, resolveUserID.
  rewrite (firstNonNil_two (supplied ri AuditLogFields.UserID)).
  destruct (isNil (supplied ri AuditLogFields.UserID)) eqn:Hs.
  - apply isNil_true in Hs.
    assert (Hnil : Get (applyRequestInfo ri (basicEntry now col a b c t))
                     AuditLogFields.UserID = VNil).
    { apply Get_applyRequestInfo_nil; [done|].
      by rewrite Get_basicEntry_other by keys_differ. }
    rewrite Hnil. cbn [isNil].
    destruct a as [x|]; [|destruct b as [y|]].
    + by rewrite Get_userFromRecord.
    + by rewrite Get_userFromRecord.
    + by rewrite Hnil.
  - pose proof (proj1 (isNil_false _) Hs) as Hne.
    rewrite (Get_applyRequestInfo_supplied ri _ _ Hne), Hs.
    by apply Get_applyRequestInfo_supplied.
Qed.

(** The two chains part only when an after-record without a user field
    comes with a before-record. *)
Lemma user_id_chains_agree (ri : option (gmap string value))
    (a b : option CoreRecord) :
  a = None \/ b = None \/
  firstNonNil [fieldOf a "user"; fieldOf a "created_by"] <> VNil ->
  userIdNestedChain ri a b = userIdFlatChain ri a b.
Proof.
  intros H. unfold userIdNestedChain, userIdFlatChain.
  destruct a as [x|], b as [y|]; cbn [firstNonNil fieldOf isNil] in *;
    repeat match goal with
           | |- context [isNil ?v] => destruct (isNil v) eqn:?
           end; try done.
  all: try (symmetry; by apply isNil_true).
  all: destruct H as [H|[H|H]]; try done.
  all: repeat match goal with
              | Hn : isNil _ = _ |- _ => rewrite Hn in H
              end.
  all: done.
Qed.

(* ===================================================================== *)
(** ** Change tracking *)
(* ===================================================================== *)







(** When a record does not serialise, its snapshot is left out and the
    entry is assembled all the same. *)
Lemma snapshot_omitted_on_failure (P : Platform) (now : Z) (col : Collection)
    (x : CoreRecord) (b : option CoreRecord) (c t : string)
    (ri : option (gmap string value)) :
  leavesKey ri AuditLogFields.AfterChanges ->
  marshalRecord P x = None ->
  absent (assembleEntry P now col (Some x) b c t ri).1
         AuditLogFields.AfterChanges.
Proof.
  intros Hri Hm. unfold absent. rewrite Get_entry_after by done. by rewrite Hm.
Qed.

(* ===================================================================== *)
(** ** The hooks and the errors of the logger *)
(* ===================================================================== *)

(** The three request hooks leave with [e.Next()], whatever [logEvent]
    returned. *)
Lemma request_hooks_call_next (P : Platform) (o : Options)
    (e : RecordRequestEvent) (w : World) :
  (onRecordCreateRequest P o e w).1 = CallsNext /\
  (onRecordUpdateRequest P o e w).1 = CallsNext /\
  (onRecordDeleteRequest P o e w).1 = CallsNext.
Proof.
  unfold onRecordCreateRequest, onRecordUpdateRequest, onRecordDeleteRequest.
  destruct (String.eqb _ _); [done|].
  destruct (loadOriginal w e), (requestInfoOf e); done.
Qed.

(** So does the auth hook, given a record. *)
Lemma auth_hook_calls_next (P : Platform) (o : Options)
    (e : RecordAuthRequestEvent) (w : World) :
  auRecord e <> None -> (onRecordAuthRequest P o e w).1 = CallsNext.
Proof.
  intros Hr. unfold onRecordAuthRequest.
  destruct (authRequestInfoOf e), (auRecord e); done.
Qed.

(** The three lifecycle hooks return what [logEvent] returns, without
    [e.Next()]. *)
Lemma lifecycle_hooks_return_logger_result (P : Platform) (o : Options)
    (e : RecordEvent) (w : World) :
  recCollection (evRecord e) <> CollectionName o ->
  (onRecordAfterCreateSuccess P o e w).1
    = Returns (logEvent P o (Some (evRecord e)) None
                 (recCollection (evRecord e)) EventTypeCreate None w).1 /\
  (onRecordAfterUpdateSuccess P o e w).1
    = Returns (logEvent P o (Some (evRecord e)) None
                 (recCollection (evRecord e)) EventTypeUpdate None w).1 /\
  (onRecordAfterDeleteSuccess P o e w).1
    = Returns (logEvent P o None (Some (evRecord e))
                 (recCollection (evRecord e)) EventTypeDelete None w).1.
Proof.
  intros Hne.
  unfold onRecordAfterCreateSuccess, onRecordAfterUpdateSuccess,
    onRecordAfterDeleteSuccess.
  destruct (String.eqb_spec (recCollection (evRecord e)) (CollectionName o));
    [done|].
  repeat split; by destruct (logEvent _ _ _ _ _ _ _ _).
Qed.

(** C2 at a failing input.  With the audit collection missing, the
    post-create hook of a widget returns the error of [logEvent] to the
    platform without calling [e.Next()], where the create-request hook of
    the same widget logs the error and leaves with [e.Next()]. *)
Lemma lifecycle_hook_returns_audit_error :
  (runHook platformOK DefaultOptions
     (AfterCreateSuccess (mkRecordEvent widget)) emptyWorld).1
  = Returns (Some (ErrCollectionNotFound "audit_logs")) /\
  runHook platformOK DefaultOptions (CreateRequest widgetRequest) emptyWorld
  = (CallsNext,
     addLog emptyWorld
       [ LogFindAuditFailed "audit_logs" (ErrCollectionNotFound "audit_logs");
         LogEventFailed EventTypeCreateReq
           (ErrCollectionNotFound "audit_logs") ]).
Proof. split; vm_compute; reflexivity. Qed.

(* ===================================================================== *)
(** ** Schema provisioning *)
(* ===================================================================== *)

Lemma ensure_existing (P : Platform) (name : string) (w : World)
    (c : Collection) :
  collections w !! name = Some c ->
  ensureAuditCollection P name w = (None, addLog w [LogCollectionExists name]).
Proof.
  intros Hc. unfold ensureAuditCollection, FindCollectionByNameOrId.
  by rewrite Hc.
Qed.

(** A successful call leaves the collection stored under its name. *)
Lemma ensure_success (P : Platform) (name : string) (w w1 : World) :
  ensureAuditCollection P name w = (None, w1) ->
  (exists c, collections w !! name = Some c /\ collections w1 = collections w) \/
  (collections w !! name = None /\
   collections w1
   = <[name := auditCollectionDefinition name]> (collections w)).
Proof.
  unfold ensureAuditCollection, FindCollectionByNameOrId, SaveCollection.
  destruct (collections w !! name) as [c|] eqn:Hc.
  - intros [= <-]. left. by exists c.
  - destruct (saveCollectionErr P w _); [done|].
    intros [= <-]. right. done.
Qed.

Lemma collectionsNamed_one (w : World) (name : string) (c : Collection) :
  wellKeyed w -> collections w !! name = Some c -> collectionsNamed w name = 1.
Proof.
  intros Hwk Hc. unfold collectionsNamed.
  assert (Heq : filter (fun kc : string * Collection => colName kc.2 = name)
                  (collections w) = {[ name := c ]}).
  { apply map_eq. intros i. apply option_eq. intros x.
    rewrite map_lookup_filter_Some, lookup_singleton_Some. simpl.
    split.
    - intros [Hi Hn]. pose proof (Hwk _ _ Hi). split; congruence.
    - intros [<- <-]. split; [done|]. by apply Hwk. }
  rewrite Heq. apply map_size_singleton.
Qed.

(** C7 as the specification words it fails: while the storage refuses
    saves, the second call returns an error like the first, and no
    collection carries the name. *)
Lemma provisioning_twice_can_fail :
  (ensureAuditCollection platformNoSave "audit_logs"
     (ensureAuditCollection platformNoSave "audit_logs" emptyWorld).2).1
  = Some (ErrStorage "read-only") /\
  collectionsNamed
    (ensureAuditCollection platformNoSave "audit_logs"
       (ensureAuditCollection platformNoSave "audit_logs" emptyWorld).2).2
    "audit_logs" = 0.
Proof. split; vm_compute; reflexivity. Qed.

(** C7, idempotent provisioning, amended.  When a collection of the
    configured name exists, [ensureAuditCollection] returns success and
    leaves the collections as they are.  After a call that returned
    success, a second call with the same name returns success, leaves the
    collections as the first call left them, and exactly one collection
    carries the name.  Whatever the first call returned, the second leaves
    the collections as the first left them. *)
Theorem provisioning_idempotent (P : Platform) (name : string) :
  (forall (w : World) (c : Collection),
      collections w !! name = Some c ->
      (ensureAuditCollection P name w).1 = None /\
      collections (ensureAuditCollection P name w).2 = collections w /\
      records (ensureAuditCollection P name w).2 = records w) /\
  (forall (w w1 : World),
      wellKeyed w ->
      ensureAuditCollection P name w = (None, w1) ->
      (ensureAuditCollection P name w1).1 = None /\
      collections (ensureAuditCollection P name w1).2 = collections w1 /\
      collectionsNamed (ensureAuditCollection P name w1).2 name = 1) /\
  (forall w : World,
      collections (ensureAuditCollection P name
                     (ensureAuditCollection P name w).2).2
      = collections (ensureAuditCollection P name w).2).
Proof.
  split; [|split].
  - intros w c Hc. by rewrite (ensure_existing P name w c Hc).
  - intros w w1 Hwk H1.
    assert (Hin : exists c, collections w1 !! name = Some c /\ wellKeyed w1).
    { destruct (ensure_success P name w w1 H1) as [(c & Hc & Heq)|[Hn Heq]].
      - exists c. unfold wellKeyed. rewrite Heq. done.
      - exists (auditCollectionDefinition name). rewrite Heq. split.
        + apply lookup_insert_eq.
        + unfold wellKeyed. rewrite Heq. intros k c.
          rewrite lookup_insert. case_decide.
          * intros [= <-]. by subst.
          * apply Hwk. }
    destruct Hin as (c & Hc & Hwk1).
    rewrite (ensure_existing P name w1 c Hc). simpl.
    repeat split. by apply (collectionsNamed_one _ _ c).
  - intros w.
    destruct (ensureAuditCollection P name w) as [[err|] w1] eqn:H1; simpl.
    + (* the first call failed: the world is the one it started from *)
      assert (w1 = w) as ->.
      { revert H1. unfold ensureAuditCollection, FindCollectionByNameOrId,
          SaveCollection.
        destruct (collections w !! name); [done|].
        destruct (saveCollectionErr P w _); [|done]. by intros [= _ <-]. }
      by rewrite H1.
    + destruct (ensure_success P name w w1 H1) as [(c & Hc & Heq)|[Hn Heq]].
      * rewrite <- Heq in Hc. by rewrite (ensure_existing P name w1 c Hc).
      * erewrite ensure_existing; [done|]. rewrite Heq. apply lookup_insert_eq.
Qed.

Lemma provisioning_idempotent_witness :
  (ensureAuditCollection platformOK "audit_logs"
     (ensureAuditCollection platformOK "audit_logs" emptyWorld).2).1 = None /\
  collections (ensureAuditCollection platformOK "audit_logs"
     (ensureAuditCollection platformOK "audit_logs" emptyWorld).2).2
  = collections (ensureAuditCollection platformOK "audit_logs" emptyWorld).2 /\
  collectionsNamed (ensureAuditCollection platformOK "audit_logs"
     (ensureAuditCollection platformOK "audit_logs" emptyWorld).2).2
     "audit_logs" = 1.
Proof.
  apply (proj1 (proj2 (provisioning_idempotent platformOK "audit_logs"))
           emptyWorld).
  - intros k c Hk. vm_compute in Hk. discriminate.
  - reflexivity.
Defined.

(* ===================================================================== *)
(** ** Client address *)
(* ===================================================================== *)

(** Reading the lower-cased copy is looking the name up without regard to
    letter case in the headers themselves. *)
Lemma headerMap_fold (l : list (string * string)) (m : gmap string string)
    (n : string) :
  fold_left (fun m kv => <[ToLower kv.1 := kv.2]> m) l m !! n
  = fold_left (fun found kv =>
                 if String.eqb (ToLower kv.1) n then Some kv.2 else found)
              l (m !! n).
Proof.
  revert m. induction l as [|[k v] l IH]; intros m; simpl; [done|].
  rewrite IH. f_equal.
  rewrite lookup_insert.
  destruct (String.eqb_spec (ToLower k) n); by case_decide.
Qed.

Lemma headerMap_lookup (headers : gmap string string) (n : string) :
  headerMap headers !! n = headerCI headers n.
Proof. unfold headerMap, headerCI. by rewrite headerMap_fold, lookup_empty. Qed.

Lemma Split_first (s : string) (sep : ascii) :
  exists first rest, Split s sep = first :: rest.
Proof.
  induction s as [|c s (first & rest & IH)]; simpl; [by eauto|].
  destruct (Ascii.eqb c sep); [by eauto|]. rewrite IH. by eauto.
Qed.

Lemma foldCI_found (l : list (string * string)) (acc : option string)
    (k v : string) :
  (k, v) ∈ l ->
  (forall k' v', (k', v') ∈ l -> ToLower k' = ToLower k -> (k', v') = (k, v)) ->
  fold_left (fun found kv =>
               if String.eqb (ToLower kv.1) (ToLower k) then Some kv.2
               else found) l acc = Some v.
Proof.
  revert acc. induction l as [|[k' v'] l IH] using rev_ind; intros acc Hin Huniq.
  - by apply elem_of_nil in Hin.
  - rewrite fold_left_app. simpl.
    destruct (String.eqb_spec (ToLower k') (ToLower k)) as [Heq|Hne].
    + assert ((k', v') = (k, v)) as [= -> ->]; [|done].
      apply Huniq; [|done]. apply elem_of_app. right. by apply list_elem_of_singleton.
    + apply IH.
      * apply elem_of_app in Hin as [Hin|Hin]; [done|].
        apply list_elem_of_singleton in Hin. by injection Hin as <- <-.
      * intros k2 v2 H2. apply Huniq. apply elem_of_app. by left.
Qed.

Lemma foldCI_missing (l : list (string * string)) (n : string) :
  (forall k v, (k, v) ∈ l -> ToLower k <> n) ->
  fold_left (fun found kv =>
               if String.eqb (ToLower kv.1) n then Some kv.2 else found)
            l None = None.
Proof.
  induction l as [|[k v] l IH] using rev_ind; intros Hno; [done|].
  rewrite fold_left_app. simpl.
  destruct (String.eqb_spec (ToLower k) n) as [Heq|Hne].
  - exfalso. apply (Hno k v); [|done].
    apply elem_of_app. right. by apply list_elem_of_singleton.
  - apply IH. intros k2 v2 H2. apply (Hno k2 v2). apply elem_of_app. by left.
Qed.

(** Header lookup is case-insensitive: a header is found under the
    lower-case form of its name, however the request spells it. *)
Lemma headerCI_found (headers : gmap string string) (k v : string) :
  headers !! k = Some v -> caseUnique headers k ->
  headerCI headers (ToLower k) = Some v.
Proof.
  intros Hk Hu. unfold headerCI. apply foldCI_found.
  - by apply elem_of_map_to_list.
  - intros k' v' Hin Hlow. apply elem_of_map_to_list in Hin.
    pose proof (Hu k' v' Hin Hlow) as ->. congruence.
Qed.

Lemma headerCI_missing (headers : gmap string string) (n : string) :
  (forall k v, headers !! k = Some v -> ToLower k <> n) ->
  headerCI headers n = None.
Proof.
  intros Hno. unfold headerCI. apply foldCI_missing.
  intros k v Hin. apply elem_of_map_to_list in Hin. by eapply Hno.
Qed.

(** [extractIP] follows the chain. *)
Lemma extractIP_chain (e : EventCaps) : (extractIP e).1 = ipChain e.
Proof.
  unfold extractIP, ipChain.
  destruct (capRealIP e) as [ip|]; [done|].
  destruct (capRequestInfo e) as [[err|reqInfo]|]; [done| |done].
  simpl. unfold ipFromHeaders, nonEmptyHeader, candidate, firstEntry.
  rewrite !headerMap_lookup.
  repeat (match goal with
          | |- context [match headerCI ?h ?n with _ => _ end] =>
              destruct (headerCI h n) eqn:?
          | |- context [if String.eqb ?v "" then _ else _] =>
              destruct (String.eqb v "") eqn:?
          | |- context [Split ?s comma] =>
              destruct (Split_first s comma) as (? & ? & ->)
          end; simpl); done.
Qed.

(** main.go: the forwarded header first and whole, exact names, no
    sentinel. *)
Lemma mainClientIP_chain (headers : gmap string string) :
  mainClientIP headers
  = default "" (firstSome [ exactCandidate headers "x-forwarded-for";
                            exactCandidate headers "x-real-ip";
                            exactCandidate headers "cf-connecting-ip" ]).
Proof.
  unfold mainClientIP, exactCandidate, goIndex.
  destruct (headers !! "x-forwarded-for") as [xff|];
    destruct (headers !! "x-real-ip") as [xr|];
    destruct (headers !! "cf-connecting-ip") as [cf|]; simpl;
    repeat (match goal with
            | |- context [String.eqb ?v ""] =>
                destruct (String.eqb_spec v ""); subst
            end; simpl); done.
Qed.

(** C6 as the specification words it fails on the stand-alone application:
    with both headers its hooks store the whole forwarded header, not the
    Cloudflare address; with the forwarded header alone they store it
    unsplit; and headers spelt in capitals are not found at all. *)
Lemma standalone_app_ip_precedence_fails :
  mainClientIP cloudflareAndForwarded = "2.2.2.2, 3.3.3.3" /\
  mainClientIP cloudflareAndForwarded <> "1.1.1.1" /\
  mainClientIP forwardedOnly = "2.2.2.2, 3.3.3.3" /\
  mainClientIP forwardedOnly <> "2.2.2.2" /\
  mainClientIP mixedCaseHeaders = "".
Proof.
  repeat split; try (vm_compute; reflexivity); vm_compute; discriminate.
Qed.

(** C6, client address, amended.  [extractIP], the extractor of the
    package, follows the chain: the event's own [RealIP()] when it has
    one; else, from the request headers read without regard to letter
    case, [cf-connecting-ip], else the trimmed first comma-separated entry
    of [x-forwarded-for], else [x-real-ip], else [fly-client-ip], else
    "unknown" (also when the request information is not to be had).  With
    [cf-connecting-ip=1.1.1.1] and [x-forwarded-for=2.2.2.2, 3.3.3.3] it
    yields 1.1.1.1, with the second header alone 2.2.2.2.  The hooks of the
    stand-alone application in main.go do not go through it: they store
    [x-forwarded-for] whole, else [x-real-ip], else [cf-connecting-ip],
    else the empty string, each read under its exact name. *)
Theorem ip_extraction_precedence :
  (forall e : EventCaps, (extractIP e).1 = ipChain e) /\
  (forall (headers : gmap string string) (k v : string),
      headers !! k = Some v -> caseUnique headers k ->
      headerCI headers (ToLower k) = Some v) /\
  (extractIP (headersEvent cloudflareAndForwarded)).1 = "1.1.1.1" /\
  (extractIP (headersEvent forwardedOnly)).1 = "2.2.2.2" /\
  (forall headers : gmap string string,
      mainClientIP headers
      = default "" (firstSome [ exactCandidate headers "x-forwarded-for";
                                exactCandidate headers "x-real-ip";
                                exactCandidate headers "cf-connecting-ip" ])).
Proof.
  split; [exact extractIP_chain|].
  split; [exact headerCI_found|].
  split; [vm_compute; reflexivity|].
  split; [vm_compute; reflexivity|].
  exact mainClientIP_chain.
Qed.

Lemma ip_extraction_precedence_witness :
  headerCI mixedCaseHeaders "cf-connecting-ip" = Some "1.1.1.1".
Proof.
  apply (proj1 (proj2 ip_extraction_precedence)
           mixedCaseHeaders "CF-Connecting-IP" "1.1.1.1").
  - reflexivity.
  - intros k v Hk Hlow. unfold mixedCaseHeaders in Hk.
    apply lookup_insert_Some in Hk as [[<- _]|[_ Hk]]; [reflexivity|].
    apply lookup_singleton_Some in Hk as [<- _].
    vm_compute in Hlow. discriminate.
Defined.

(* ===================================================================== *)
(** ** The end-to-end scenario of the specification *)
(* ===================================================================== *)

(** A widget with [user = U1] is created through the request path by an
    unauthenticated client: one entry, of type [create_request], for the
    collection [widgets], with the user taken from the record, the
    serialised widget as [after_changes] and no [before_changes]. *)
Example widget_created_by_request :
  exists E,
    runHook platformOK DefaultOptions (CreateRequest widgetRequest) readyWorld
    = (CallsNext,
       {| collections := collections readyWorld;
          records := [E];
          clock := clock readyWorld;
          console := [LogAuditCreated EventTypeCreateReq "widgets" "w1"] |}) /\
    Get E AuditLogFields.EventType = VStr EventTypeCreateReq /\
    Get E AuditLogFields.CollectionName = VStr "widgets" /\
    Get E AuditLogFields.RecordID = VStr "w1" /\
    Get E AuditLogFields.UserID = VStr "U1" /\
    Get E AuditLogFields.RequestIP = VStr "10.0.0.7" /\
    present E AuditLogFields.AfterChanges /\
    absent E AuditLogFields.BeforeChanges.
Proof.
  eexists. split; [vm_compute; reflexivity|].
  repeat split; try (vm_compute; reflexivity).
  vm_compute. discriminate.
Qed.

(* ===================================================================== *)
(** ** Options and start-up *)
(* ===================================================================== *)

Lemma applyDefaultOptions_keeps (options : Options) :
  EnableStandardEvents (applyDefaultOptions options)
    = EnableStandardEvents options /\
  EnableRequestEvents (applyDefaultOptions options)
    = EnableRequestEvents options /\
  EnableAuthEvents (applyDefaultOptions options) = EnableAuthEvents options /\
  EventFilter (applyDefaultOptions options) = EventFilter options /\
  SchemaPath (applyDefaultOptions options) = SchemaPath options /\
  CreateAuditCollection (applyDefaultOptions options)
    = CreateAuditCollection options /\
  FailOnSchemaError (applyDefaultOptions options) = FailOnSchemaError options.
Proof.
  unfold applyDefaultOptions.
  by destruct (String.eqb (CollectionName options) "").
Qed.

(** [applyDefaultOptions] fills in the collection name and nothing else:
    the name it returns is never empty, a name that was given is kept, an
    empty one becomes "audit_logs"; the flags, the filter and the schema
    path are the caller's, so an all-zero [Options] stays with every event
    class off; and applying it twice is applying it once. *)
Theorem applyDefaultOptions_name_only (options : Options) :
  let o := applyDefaultOptions options in
  CollectionName o <> "" /\
  (CollectionName options <> "" -> o = options) /\
  (CollectionName options = "" -> CollectionName o = "audit_logs") /\
  EnableStandardEvents o = EnableStandardEvents options /\
  EnableRequestEvents o = EnableRequestEvents options /\
  EnableAuthEvents o = EnableAuthEvents options /\
  EventFilter o = EventFilter options /\
  SchemaPath o = SchemaPath options /\
  CreateAuditCollection o = CreateAuditCollection options /\
  FailOnSchemaError o = FailOnSchemaError options /\
  LogToConsole o = LogToConsole options /\
  applyDefaultOptions o = o.
Proof.
  unfold applyDefaultOptions.
  destruct (String.eqb_spec (CollectionName options) "") as [He|Hne]; simpl.
  - repeat split; try done.
  - destruct (String.eqb_spec (CollectionName options) ""); [done|].
    repeat split; done.
Qed.

Lemma applyDefaultOptions_name_only_witness :
  CollectionName (applyDefaultOptions schemaOptions) = "audit_logs".
Proof.
  apply (proj1 (proj2 (proj2 (applyDefaultOptions_name_only schemaOptions)))).
  reflexivity.
Defined.

Lemma ensure_keeps (P : Platform) (name n : string) (w : World) :
  is_Some (collections w !! n) ->
  is_Some (collections (ensureAuditCollection P name w).2 !! n).
Proof.
  intros Hn. unfold ensureAuditCollection, FindCollectionByNameOrId,
    SaveCollection.
  destruct (collections w !! name) eqn:Hc; simpl; [done|].
  destruct (saveCollectionErr P w _); simpl; [done|].
  rewrite lookup_insert. case_decide; [by eexists|done].
Qed.

Lemma ensure_records (P : Platform) (name : string) (w : World) :
  records (ensureAuditCollection P name w).2 = records w.
Proof.
  unfold ensureAuditCollection, FindCollectionByNameOrId, SaveCollection.
  destruct (collections w !! name); simpl; [done|].
  by destruct (saveCollectionErr P w _).
Qed.

Lemma ensure_ok_exists (P : Platform) (name : string) (w w1 : World) :
  ensureAuditCollection P name w = (None, w1) ->
  is_Some (collections w1 !! name).
Proof.
  intros H1.
  destruct (ensure_success P name w w1 H1) as [(c & Hc & Heq)|[Hn Heq]];
    rewrite Heq.
  - by eexists.
  - rewrite lookup_insert_eq. by eexists.
Qed.

Lemma import_records (P : Platform) (H : Host)
    (schemaPath collectionName : string) (w : World) :
  records (importCollectionsFromFile P H schemaPath collectionName w).1.2
  = records w.
Proof.
  unfold importCollectionsFromFile.
  destruct (readFile H schemaPath) as [err|data]; [done|].
  destruct (importCollections H (collections w) data) as [err|cols]; [done|].
  destruct (FindCollectionByNameOrId _ _); [|done].
  pose proof (ensure_records P collectionName (withCollections w cols)) as Hr.
  by destruct (ensureAuditCollection P collectionName _) as [[err|] w1].
Qed.

Lemma import_ok_exists (P : Platform) (H : Host)
    (schemaPath collectionName : string) (w w' : World)
    (msgs : list SetupMsg) :
  importCollectionsFromFile P H schemaPath collectionName w = (None, w', msgs) ->
  is_Some (collections w' !! collectionName).
Proof.
  unfold importCollectionsFromFile.
  destruct (readFile H schemaPath) as [err|data]; [done|].
  destruct (importCollections H (collections w) data) as [err|cols]; [done|].
  unfold FindCollectionByNameOrId at 1. simpl.
  destruct (cols !! collectionName) as [c|] eqn:Hc.
  - intros [= <- _]. simpl. rewrite Hc. by eexists.
  - destruct (ensureAuditCollection P collectionName (withCollections w cols))
      as [[err|] w1] eqn:He; [done|].
    intros [= <- _]. by eapply ensure_ok_exists.
Qed.

Lemma import_keeps (P : Platform) (H : Host)
    (schemaPath collectionName n : string) (w : World) :
  keepsCollections H ->
  is_Some (collections w !! n) ->
  is_Some (collections
             (importCollectionsFromFile P H schemaPath collectionName w).1.2
           !! n).
Proof.
  intros Hk Hn. unfold importCollectionsFromFile.
  destruct (readFile H schemaPath) as [err|data]; [done|].
  destruct (importCollections H (collections w) data) as [err|cols] eqn:Hi;
    [done|].
  pose proof (Hk _ _ _ n Hi Hn) as Hn'.
  destruct (FindCollectionByNameOrId _ _); [|done].
  pose proof (ensure_keeps P collectionName n (withCollections w cols) Hn').
  by destruct (ensureAuditCollection P collectionName _) as [[err|] w1].
Qed.

(** A successful import leaves the audit collection in place, whatever the
    schema file held: it is looked up after the import and created when
    missing.  The stored records are not touched. *)
Theorem import_ensures_audit_collection (P : Platform) (H : Host)
    (schemaPath collectionName : string) (w w' : World)
    (msgs : list SetupMsg) :
  importCollectionsFromFile P H schemaPath collectionName w = (None, w', msgs) ->
  is_Some (collections w' !! collectionName) /\
  records w' = records w /\
  last msgs = Some (MsgImported schemaPath).
Proof.
  unfold importCollectionsFromFile.
  destruct (readFile H schemaPath) as [err|data]; [done|].
  destruct (importCollections H (collections w) data) as [err|cols]; [done|].
  unfold FindCollectionByNameOrId at 1. simpl.
  destruct (cols !! collectionName) as [c|] eqn:Hc.
  - intros [= <- <-]. simpl. rewrite Hc. by repeat split; [eexists|..].
  - destruct (ensureAuditCollection P collectionName (withCollections w cols))
      as [[err|] w1] eqn:He; [done|].
    intros [= <- <-]. repeat split.
    + by eapply ensure_ok_exists.
    + pose proof (ensure_records P collectionName (withCollections w cols)) as Hr.
      by rewrite He in Hr.
Qed.

Lemma import_ensures_audit_collection_witness :
  is_Some (collections
             (importCollectionsFromFile platformOK sampleHost "pb_schema.json"
                "audit_logs" emptyWorld).1.2 !! "audit_logs") /\
  records (importCollectionsFromFile platformOK sampleHost "pb_schema.json"
             "audit_logs" emptyWorld).1.2 = records emptyWorld /\
  last (importCollectionsFromFile platformOK sampleHost "pb_schema.json"
          "audit_logs" emptyWorld).2 = Some (MsgImported "pb_schema.json").
Proof.
  apply (import_ensures_audit_collection platformOK sampleHost
           "pb_schema.json" "audit_logs" emptyWorld).
  reflexivity.
Defined.

(** A schema file that cannot be read, or that the platform refuses to
    import, is reported wrapped in the name of the step that failed, and
    the world is left exactly as it was. *)
Theorem import_failure_leaves_world (P : Platform) (H : Host)
    (schemaPath collectionName : string) (w : World) :
  (forall err, readFile H schemaPath = inl err ->
     importCollectionsFromFile P H schemaPath collectionName w
     = (Some (Wrapped "failed to read schema file" err), w, [])) /\
  (forall data err,
     readFile H schemaPath = inr data ->
     importCollections H (collections w) data = inl err ->
     importCollectionsFromFile P H schemaPath collectionName w
     = (Some (Wrapped "failed to import collections" err), w, [])) /\
  (forall err w' msgs,
     importCollectionsFromFile P H schemaPath collectionName w
     = (Some err, w', msgs) ->
     records w' = records w /\
     exists context inner, err = Wrapped context inner).
Proof.
  split; [|split].
  - intros err Hr. unfold importCollectionsFromFile. by rewrite Hr.
  - intros data err Hr Hi. unfold importCollectionsFromFile. by rewrite Hr, Hi.
  - intros err w' msgs. unfold importCollectionsFromFile.
    destruct (readFile H schemaPath) as [e1|data];
      [intros [= <- <- _]; eauto|].
    destruct (importCollections H (collections w) data) as [e2|cols];
      [intros [= <- <- _]; eauto|].
    destruct (FindCollectionByNameOrId _ _); [|done].
    pose proof (ensure_records P collectionName (withCollections w cols)) as Hr.
    destruct (ensureAuditCollection P collectionName _) as [[e3|] w1]; [|done].
    intros [= <- <- _]. eauto.
Qed.

Lemma import_failure_leaves_world_witness :
  importCollectionsFromFile platformOK sampleHost "missing.json" "audit_logs"
    readyWorld
  = (Some (Wrapped "failed to read schema file" (HostError "no such file")),
     readyWorld, []).
Proof.
  apply (proj1 (import_failure_leaves_world platformOK sampleHost
                  "missing.json" "audit_logs" readyWorld)).
  reflexivity.
Defined.

(** What a start-up that returned nil went through. *)
Lemma onBootstrap_ok (P : Platform) (H : Host) (o : Options)
    (next : option setupError) (w : World) (rt : Runtime) :
  onBootstrap P H o next w = (None, rt) ->
  next = None /\
  exists w1,
    (if CreateAuditCollection o
     then ensureAuditCollection P (CollectionName o) w else (None, w))
    = (None, w1) /\
    rtBindings rt = (registerHooks o).1 /\
    ((SchemaPath o = "" /\ rtWorld rt = w1) \/
     (SchemaPath o <> "" /\
      exists ierr msgs,
        importCollectionsFromFile P H (SchemaPath o) (CollectionName o) w1
        = (ierr, rtWorld rt, msgs) /\
        (ierr = None \/ FailOnSchemaError o = false))).
Proof.
  unfold onBootstrap. destruct next as [err|]; [done|].
  intros Hrun. split; [done|].
  destruct (if CreateAuditCollection o
            then ensureAuditCollection P (CollectionName o) w else (None, w))
    as [[err|] w1]; [done|].
  exists w1. split; [done|].
  destruct (String.eqb_spec (SchemaPath o) "") as [Hs|Hs].
  - destruct (registerHooks o) as [b l]. injection Hrun as <-. simpl. auto.
  - destruct (importCollectionsFromFile P H (SchemaPath o) (CollectionName o) w1)
      as [[ierr w2] msgs].
    destruct ierr as [ierr|].
    + destruct (FailOnSchemaError o) eqn:Hf; [done|].
      destruct (registerHooks o) as [b l]. injection Hrun as <-. simpl.
      split; [done|]. right. split; [done|]. eauto.
    + destruct (FailOnSchemaError o), (registerHooks o) as [b l];
        injection Hrun as <-; simpl; (split; [done|]); right; (split; [done|]);
        eauto.
Qed.

Lemma onBootstrap_world (P : Platform) (H : Host) (o : Options)
    (next : option setupError) (w : World) :
  records (rtWorld (onBootstrap P H o next w).2) = records w.
Proof.
  unfold onBootstrap. destruct next as [err|]; [done|].
  assert (Hc : records
            (if CreateAuditCollection o
             then ensureAuditCollection P (CollectionName o) w
             else (None, w)).2 = records w).
  { destruct (CollectionName o), (CreateAuditCollection o);
      try done; apply ensure_records. }
  destruct (if CreateAuditCollection o
            then ensureAuditCollection P (CollectionName o) w else (None, w))
    as [[err|] w1]; simpl in *; [done|].
  assert (Hi : records
            (if String.eqb (SchemaPath o) "" then (None, w1, [])
             else importCollectionsFromFile P H (SchemaPath o)
                    (CollectionName o) w1).1.2 = records w1).
  { destruct (String.eqb (SchemaPath o) ""); [done|]. apply import_records. }
  destruct (if String.eqb (SchemaPath o) "" then (None, w1, [])
            else importCollectionsFromFile P H (SchemaPath o)
                   (CollectionName o) w1) as [[ierr w2] msgs]; simpl in *.
  destruct ierr, (FailOnSchemaError o), (registerHooks o); simpl; congruence.
Qed.

(** A start-up that returns an error has bound no hook; neither a failed
    nor a successful start-up touches the stored records.  When
    [FailOnSchemaError] is off, the only errors that can stop it are the
    platform's own and the failure to create the audit collection: no
    trouble with the schema file does. *)
Theorem startup_failures (P : Platform) (H : Host) (options : Options)
    (next : option setupError) (w : World) :
  (forall err rt, Setup P H options next w = (Some err, rt) ->
                  rtBindings rt = []) /\
  records (rtWorld (Setup P H options next w).2) = records w /\
  (FailOnSchemaError options = false ->
   forall err, (Setup P H options next w).1 = Some err ->
     next = Some err \/
     exists e, err = AppError e /\
               CreateAuditCollection options = true /\
               (ensureAuditCollection P
                  (CollectionName (applyDefaultOptions options)) w).1 = Some e).
Proof.
  unfold Setup.
  destruct (applyDefaultOptions_keeps options)
    as (_ & _ & _ & _ & _ & Hca & Hfs).
  set (o := applyDefaultOptions options) in *.
  split; [|split].
  - unfold onBootstrap. intros err rt.
    destruct next; [by intros [= _ <-]|].
    destruct (if CreateAuditCollection o
              then ensureAuditCollection P (CollectionName o) w else (None, w))
      as [[e|] w1]; [by intros [= _ <-]|].
    destruct (if String.eqb (SchemaPath o) "" then (None, w1, [])
              else importCollectionsFromFile P H (SchemaPath o)
                     (CollectionName o) w1) as [[ierr w2] msgs].
    destruct ierr, (FailOnSchemaError o), (registerHooks o);
      try done; by intros [= _ <-].
  - apply onBootstrap_world.
  - intros Hoff err. rewrite <- Hfs in Hoff. unfold onBootstrap.
    destruct next as [e0|]; [intros [= <-]; by left|].
    rewrite Hca.
    destruct (CreateAuditCollection options) eqn:Hc.
    + destruct (ensureAuditCollection P (CollectionName o) w) as [[e|] w1];
        simpl.
      * intros [= <-]. right. by exists e.
      * destruct (if String.eqb (SchemaPath o) "" then (None, w1, [])
                  else importCollectionsFromFile P H (SchemaPath o)
                         (CollectionName o) w1) as [[ierr w2] msgs].
        rewrite Hoff. by destruct ierr, (registerHooks o).
    + destruct (if String.eqb (SchemaPath o) "" then (None, w, [])
                else importCollectionsFromFile P H (SchemaPath o)
                       (CollectionName o) w) as [[ierr w2] msgs].
      rewrite Hoff. by destruct ierr, (registerHooks o).
Qed.

Lemma startup_failures_witness :
  rtBindings (Setup platformNoSave sampleHost schemaOptions None emptyWorld).2
  = [].
Proof.
  refine (proj1 (startup_failures platformNoSave sampleHost schemaOptions
                   None emptyWorld)
            (AppError (ErrStorage "read-only")) _ _).
  vm_compute. reflexivity.
Defined.

(* ===================================================================== *)
(** ** The hooks as a whole *)
(* ===================================================================== *)

(** Off the audit collection, the stored records after a hook are those
    after the one call of [logEvent] that the hook makes. *)
Lemma runHook_via_logEvent (P : Platform) (o : Options) (ev : HookEvent)
    (w : World) (c : string) :
  hookCollection ev = Some c -> c <> CollectionName o ->
  exists logs,
    records (runHook P o ev w).2
    = records (logEvent P o (hookAfter ev) (hookBefore w ev) c
                 (hookEventType ev) (hookRequestInfo ev) (addLog w logs)).2.
Proof.
  intros Hc Hne.
  destruct ev as [e|e|e|e|e|e|e]; simpl in Hc; simpl.
  1-3: injection Hc as <-; exists [];
       unfold onRecordAfterCreateSuccess, onRecordAfterUpdateSuccess,
         onRecordAfterDeleteSuccess;
       destruct (String.eqb_spec (recCollection (evRecord e)) (CollectionName o));
       [done|]; rewrite addLog_nil;
       by destruct (logEvent _ _ _ _ _ _ _ _).
  - injection Hc as <-. unfold onRecordCreateRequest.
    destruct (String.eqb_spec (rqCollection e) (CollectionName o)); [done|].
    destruct (requestInfoOf e) as [info logs]; simpl.
    exists logs. by rewrite logAndDiscard_records.
  - injection Hc as <-. unfold onRecordUpdateRequest.
    destruct (String.eqb_spec (rqCollection e) (CollectionName o)); [done|].
    destruct (loadOriginal w e) as [orig logs0]; simpl.
    destruct (requestInfoOf e) as [info logs]; simpl.
    exists (logs0 ++ logs). rewrite logAndDiscard_records.
    replace (addLog w (logs0 ++ logs)) with (addLog (addLog w logs0) logs);
      [done|].
    unfold addLog; simpl. by rewrite app_assoc.
  - injection Hc as <-. unfold onRecordDeleteRequest.
    destruct (String.eqb_spec (rqCollection e) (CollectionName o)); [done|].
    destruct (requestInfoOf e) as [info logs]; simpl.
    exists logs. by rewrite logAndDiscard_records.
  - unfold onRecordAuthRequest.
    destruct (authRequestInfoOf e) as [info logs]; simpl.
    destruct (auRecord e) as [r|]; simpl in *; [|done].
    injection Hc as <-. exists logs. by rewrite logAndDiscard_records.
Qed.

Lemma runHook_collections (P : Platform) (o : Options) (ev : HookEvent)
    (w : World) :
  collections (runHook P o ev w).2 = collections w /\
  clock (runHook P o ev w).2 = clock w.
Proof.
  assert (Hlog : forall a b c t ri w0,
            collections (logEvent P o a b c t ri w0).2 = collections w0 /\
            clock (logEvent P o a b c t ri w0).2 = clock w0).
  { intros. split; [apply logEvent_collections|].
    unfold logEvent.
    destruct (shouldLogEvent o c t); simpl; [|done].
    destruct (FindCollectionByNameOrId w0 (CollectionName o)); [done|].
    destruct (assembleEntry _ _ _ _ _ _ _ _) as [E logs]. unfold SaveRecord.
    destruct (saveRecordErr P _ E); [done|]. by destruct (LogToConsole o). }
  assert (Hdis : forall t r, collections (logAndDiscard t r) = collections r.2 /\
                             clock (logAndDiscard t r) = clock r.2).
  { intros t [[e|] w0]; done. }
  destruct ev as [e|e|e|e|e|e|e]; simpl.
  1-3: unfold onRecordAfterCreateSuccess, onRecordAfterUpdateSuccess,
         onRecordAfterDeleteSuccess;
       destruct (String.eqb _ _); [done|];
       match goal with
       | |- context [logEvent ?P0 ?o0 ?a ?b ?c ?t ?ri ?w0] =>
           pose proof (Hlog a b c t ri w0) as Hl;
           destruct (logEvent P0 o0 a b c t ri w0); exact Hl
       end.
  - unfold onRecordCreateRequest. destruct (String.eqb _ _); [done|].
    destruct (requestInfoOf e) as [info logs]; simpl.
    destruct (Hdis EventTypeCreateReq
                (logEvent P o (Some (rqRecord e)) None (rqCollection e)
                   EventTypeCreateReq (Some info) (addLog w logs))) as [-> ->].
    match goal with
    | |- context [logEvent ?P0 ?o0 ?a ?b ?c ?t ?ri ?w0] =>
        by destruct (Hlog a b c t ri w0) as [-> ->]
    end.
  - unfold onRecordUpdateRequest. destruct (String.eqb _ _); [done|].
    destruct (loadOriginal w e) as [orig logs0]; simpl.
    destruct (requestInfoOf e) as [info logs]; simpl.
    destruct (Hdis EventTypeUpdateReq
                (logEvent P o (Some (rqRecord e)) orig (rqCollection e)
                   EventTypeUpdateReq (Some info)
                   (addLog (addLog w logs0) logs))) as [-> ->].
    match goal with
    | |- context [logEvent ?P0 ?o0 ?a ?b ?c ?t ?ri ?w0] =>
        by destruct (Hlog a b c t ri w0) as [-> ->]
    end.
  - unfold onRecordDeleteRequest. destruct (String.eqb _ _); [done|].
    destruct (requestInfoOf e) as [info logs]; simpl.
    destruct (Hdis EventTypeDeleteReq
                (logEvent P o None (Some (rqRecord e)) (rqCollection e)
                   EventTypeDeleteReq (Some info) (addLog w logs))) as [-> ->].
    match goal with
    | |- context [logEvent ?P0 ?o0 ?a ?b ?c ?t ?ri ?w0] =>
        by destruct (Hlog a b c t ri w0) as [-> ->]
    end.
  - unfold onRecordAuthRequest.
    destruct (authRequestInfoOf e) as [info logs]; simpl.
    destruct (auRecord e) as [r|]; simpl; [|done].
    destruct (Hdis EventTypeAuth
                (logEvent P o (Some r) None (recCollection r)
                   EventTypeAuth (Some info) (addLog w logs))) as [-> ->].
    match goal with
    | |- context [logEvent ?P0 ?o0 ?a ?b ?c ?t ?ri ?w0] =>
        by destruct (Hlog a b c t ri w0) as [-> ->]
    end.
Qed.

(** The hooks only ever append: over any run of events the collections
    and the clock are what they were, the records that were stored are
    still there, in place and unchanged, and at most one record per event
    has been added. *)
Theorem hooks_only_append (P : Platform) (o : Options) (evs : list HookEvent)
    (w : World) :
  collections (runHooks P o evs w) = collections w /\
  clock (runHooks P o evs w) = clock w /\
  exists added,
    records (runHooks P o evs w) = records w ++ added /\
    length added <= length evs.
Proof.
  revert w. induction evs as [|ev evs IH]; intros w.
  - repeat split; try done. exists []. by rewrite app_nil_r.
  - unfold runHooks in *. simpl.
    destruct (IH (runHook P o ev w).2) as (Hc & Hk & added & Hr & Hlen).
    destruct (runHook_collections P o ev w) as [Hc1 Hk1].
    rewrite Hc, Hk, Hc1, Hk1. split; [done|]. split; [done|].
    rewrite Hr.
    destruct (runHook_records P o ev w) as [H|(col & c & _ & _ & _ & H)];
      rewrite H.
    + exists added. split; [done|]. lia.
    + rewrite <- app_assoc. eexists. split; [done|]. simpl. lia.
Qed.

(** An event on the audit collection itself never leaves a trace in the
    storage: no record is added, and the hooks that test the collection
    name themselves (all but the auth hook) hand the event on with the
    world untouched. *)
Theorem hooks_skip_audit_collection (P : Platform) (o : Options)
    (ev : HookEvent) (w : World) :
  hookCollection ev = Some (CollectionName o) ->
  (runHook P o ev w).1 = CallsNext /\
  records (runHook P o ev w).2 = records w /\
  (pointOf ev <> PointAuthRequest -> (runHook P o ev w).2 = w).
Proof.
  intros Hc.
  destruct ev as [e|e|e|e|e|e|e]; simpl in *.
  1-3: injection Hc as Hc;
       unfold onRecordAfterCreateSuccess, onRecordAfterUpdateSuccess,
         onRecordAfterDeleteSuccess; by rewrite Hc, String.eqb_refl.
  1-3: injection Hc as Hc;
       unfold onRecordCreateRequest, onRecordUpdateRequest,
         onRecordDeleteRequest; by rewrite Hc, String.eqb_refl.
  unfold onRecordAuthRequest.
  destruct (authRequestInfoOf e) as [info logs]; simpl.
  destruct (auRecord e) as [r|]; simpl in *; [|done].
  injection Hc as Hc. rewrite Hc.
  rewrite logEvent_skip by apply shouldLogEvent_self. done.
Qed.

Lemma hooks_skip_audit_collection_witness :
  (runHook platformOK DefaultOptions
     (AfterDeleteSuccess
        (mkRecordEvent (mkRecord "a1" "audit_logs" ∅))) readyWorld).2
  = readyWorld.
Proof.
  refine (proj2 (proj2 (hooks_skip_audit_collection platformOK DefaultOptions
            (AfterDeleteSuccess (mkRecordEvent (mkRecord "a1" "audit_logs" ∅)))
            readyWorld _)) _).
  - reflexivity.
  - discriminate.
Defined.

(* ===================================================================== *)
(** ** What an entry holds *)
(* ===================================================================== *)

Lemma Get_applyRequestInfo (ri : option (gmap string value))
    (r : CoreRecord) (k : string) :
  Get (applyRequestInfo ri r) k =
  match ri with
  | Some info => match info !! k with
                 | Some v => v
                 | None => Get r k
                 end
  | None => Get r k
  end.
Proof.
  destruct ri as [info|]; [|done].
  unfold Get. rewrite applyRequestInfo_data.
  destruct (info !! k) as [v|] eqn:Hk.
  - by rewrite (lookup_union_Some_l _ _ _ _ Hk).
  - by rewrite lookup_union_r.
Qed.

(** Outside the user id and the two snapshots, a field of the entry is
    what the request information holds under its name, else what the
    basic entry holds. *)
Lemma Get_entry_merged (P : Platform) (now : Z) (col : Collection)
    (a b : option CoreRecord) (c t : string)
    (ri : option (gmap string value)) (k : string) :
  k <> AuditLogFields.UserID -> k <> AuditLogFields.BeforeChanges ->
  k <> AuditLogFields.AfterChanges ->
  Get (assembleEntry P now col a b c t ri).1 k =
  match ri with
  | Some info => match info !! k with
                 | Some v => v
                 | None => Get (basicEntry now col a b c t) k
                 end
  | None => Get (basicEntry now col a b c t) k
  end.
Proof.
  intros H1 H2 H3. rewrite assembleEntry_entry.
  rewrite !Get_storeChanges_ne by done.
  rewrite Get_resolveUserID_ne by done.
  apply Get_applyRequestInfo.
Qed.

Lemma entry_user_id_chain (P : Platform) (now : Z) (col : Collection)
    (a b : option CoreRecord) (c t : string)
    (ri : option (gmap string value)) :
  Get (assembleEntry P now col a b c t ri).1 AuditLogFields.UserID
  = userIdNestedChain ri a b.
Proof.
  rewrite assembleEntry_entry.
  rewrite !Get_storeChanges_ne by keys_differ.
  unfold userIdNestedChain, resolveUserID.
  rewrite (firstNonNil_two (supplied ri AuditLogFields.UserID)).
  destruct (isNil (supplied ri AuditLogFields.UserID)) eqn:Hs.
  - apply isNil_true in Hs.
    assert (Hnil : Get (applyRequestInfo ri (basicEntry now col a b c t))
                     AuditLogFields.UserID = VNil).
    { apply Get_applyRequestInfo_nil; [done|].
      by rewrite Get_basicEntry_other by keys_differ. }
    rewrite Hnil. cbn [isNil].
    destruct a as [x|]; [|destruct b as [y|]].
    + by rewrite Get_userFromRecord.
    + by rewrite Get_userFromRecord.
    + by rewrite Hnil.
  - pose proof (proj1 (isNil_false _) Hs) as Hne.
    rewrite (Get_applyRequestInfo_supplied ri _ _ Hne), Hs.
    by apply Get_applyRequestInfo_supplied.
Qed.

(** The request information of a request hook, key by key. *)
Lemma requestInfoOf_lookup (e : RecordRequestEvent) :
  (requestInfoOf e).1 !! AuditLogFields.RequestIP = Some (VStr (rqRealIP e)) /\
  (requestInfoOf e).1 !! AuditLogFields.AuthMethod = None /\
  (requestInfoOf e).1 !! AuditLogFields.RequestMethod
    = match rqRequestInfo e with
      | inr ri => Some (VStr (Method ri))
      | inl _ => None
      end /\
  (requestInfoOf e).1 !! AuditLogFields.RequestURL
    = match rqRequestInfo e with
      | inr ri => Some (VStr (Context ri))
      | inl _ => None
      end /\
  (requestInfoOf e).1 !! AuditLogFields.UserID
    = match rqRequestInfo e with
      | inr ri => (fun a => VStr (Id a)) <$> Auth ri
      | inl _ => None
      end.
Proof.
  unfold requestInfoOf. rewrite extractIP_request. unfold addRequestDetails.
  destruct (rqRequestInfo e) as [err|ri]; simpl.
  - repeat split; done.
  - destruct (Auth ri) as [a|]; simpl; repeat split; done.
Qed.

(** The request information of the auth hook, key by key. *)
Lemma authRequestInfoOf_lookup (e : RecordAuthRequestEvent) :
  (authRequestInfoOf e).1 !! AuditLogFields.RequestIP
    = Some (VStr (auRealIP e)) /\
  (authRequestInfoOf e).1 !! AuditLogFields.AuthMethod
    = Some (VStr (auAuthMethod e)) /\
  (authRequestInfoOf e).1 !! AuditLogFields.RequestMethod
    = match auRequestInfo e with
      | inr ri => Some (VStr (Method ri))
      | inl _ => None
      end /\
  (authRequestInfoOf e).1 !! AuditLogFields.RequestURL
    = match auRequestInfo e with
      | inr ri => Some (VStr (Context ri))
      | inl _ => None
      end /\
  (authRequestInfoOf e).1 !! AuditLogFields.UserID
    = (fun r => VStr (Id r)) <$> auRecord e.
Proof.
  unfold authRequestInfoOf. rewrite extractIP_auth. unfold addRequestDetails.
  destruct (auRequestInfo e) as [err|ri], (auRecord e) as [r|]; simpl;
    repeat split; done.
Qed.

(** A field of a hook's entry that neither the request information nor
    the later steps of the logger write is the one of the basic entry. *)
Lemma hook_entry_kept (P : Platform) (o : Options) (ev : HookEvent)
    (w : World) (E : CoreRecord) (k : string) :
  records (runHook P o ev w).2 = records w ++ [E] ->
  k ∉ requestKeys -> k <> AuditLogFields.BeforeChanges ->
  k <> AuditLogFields.AfterChanges ->
  exists col c,
    hookCollection ev = Some c /\
    Get E k = Get (basicEntry (clock w) col (hookAfter ev) (hookBefore w ev) c
                     (hookEventType ev)) k.
Proof.
  intros HE Hk Hb Ha.
  destruct (runHook_entry P o ev w E HE) as (col & c & Hc & ->).
  exists col, c. split; [done|].
  apply Get_entry_kept; try done.
  - intros ->. apply Hk. unfold requestKeys. rewrite !elem_of_cons. tauto.
  - by apply hookRequestInfo_leaves.
Qed.

Lemma hook_entry_event_type (P : Platform) (o : Options) (ev : HookEvent)
    (w : World) (E : CoreRecord) :
  records (runHook P o ev w).2 = records w ++ [E] ->
  Get E AuditLogFields.EventType = VStr (hookEventType ev).
Proof.
  intros HE.
  destruct (hook_entry_kept P o ev w E AuditLogFields.EventType HE)
    as (col & c & _ & ->); try keys_differ; [not_request_key|].
  apply Get_basicEntry_event_type.
Qed.

Lemma hook_entry_collection_name (P : Platform) (o : Options) (ev : HookEvent)
    (w : World) (E : CoreRecord) :
  records (runHook P o ev w).2 = records w ++ [E] ->
  exists c, hookCollection ev = Some c /\
            Get E AuditLogFields.CollectionName = VStr c.
Proof.
  intros HE.
  destruct (hook_entry_kept P o ev w E AuditLogFields.CollectionName HE)
    as (col & c & Hc & ->); try keys_differ; [not_request_key|].
  exists c. split; [done|]. apply Get_basicEntry_collection_name.
Qed.

Lemma hook_entry_timestamp (P : Platform) (o : Options) (ev : HookEvent)
    (w : World) (E : CoreRecord) :
  records (runHook P o ev w).2 = records w ++ [E] ->
  Get E AuditLogFields.Timestamp = VTime (clock w).
Proof.
  intros HE.
  destruct (hook_entry_kept P o ev w E AuditLogFields.Timestamp HE)
    as (col & c & _ & ->); try keys_differ; [not_request_key|].
  unfold basicEntry. by rewrite Get_SetField_eq.
Qed.

(** Every entry a hook appends is a new record of the audit collection
    that carries the event-type tag of its registration point, one of the
    seven of [AllEventTypes], the name of the observed collection, and the
    time of the server clock at the call. *)
Theorem entry_header (P : Platform) (o : Options) (ev : HookEvent)
    (w : World) (E : CoreRecord) :
  records (runHook P o ev w).2 = records w ++ [E] ->
  Get E AuditLogFields.EventType = VStr (hookEventType ev) /\
  In (hookEventType ev) AllEventTypes /\
  Get E AuditLogFields.Timestamp = VTime (clock w) /\
  (exists c, hookCollection ev = Some c /\
             Get E AuditLogFields.CollectionName = VStr c) /\
  (exists col, collections w !! CollectionName o = Some col /\
               recCollection E = colName col) /\
  Id E = "".
Proof.
  intros HE.
  destruct (runHook_records P o ev w) as [H|(col & c & Hc & Hg & Hf & H)].
  { rewrite H in HE. symmetry in HE.
    apply (f_equal length) in HE. rewrite length_app in HE. simpl in HE. lia. }
  rewrite H in HE. apply app_inv_head in HE. injection HE as <-.
  assert (Hleave : forall k, k ∉ requestKeys ->
                             leavesKey (hookRequestInfo ev) k)
    by (intros; by apply hookRequestInfo_leaves).
  split; [|split; [|split; [|split; [|split]]]].
  - rewrite Get_entry_kept; try keys_differ.
    + apply Get_basicEntry_event_type.
    + apply Hleave. not_request_key.
  - destruct ev; simpl; tauto.
  - rewrite Get_entry_kept; try keys_differ.
    + unfold basicEntry. by rewrite Get_SetField_eq.
    + apply Hleave. not_request_key.
  - exists c. split; [done|].
    rewrite Get_entry_kept; try keys_differ.
    + apply Get_basicEntry_collection_name.
    + apply Hleave. not_request_key.
  - exists col. split.
    + unfold FindCollectionByNameOrId in Hf.
      by destruct (collections w !! CollectionName o) as [c0|]; [injection Hf as ->|].
    + rewrite assembleEntry_entry. unfold storeChanges, resolveUserID,
        userFromRecord, applyRequestInfo.
      assert (Hfold : forall l r,
        recCollection (fold_left (fun r kv => SetField r kv.1 kv.2) l r)
        = recCollection r).
      { induction l as [|kv l IH]; intros r; simpl; [done|]. by rewrite IH. }
      repeat case_match; simpl; rewrite ?Hfold; done.
  - rewrite assembleEntry_entry. unfold storeChanges, resolveUserID,
      userFromRecord, applyRequestInfo.
    assert (Hfold : forall l r,
      Id (fold_left (fun r kv => SetField r kv.1 kv.2) l r) = Id r).
    { induction l as [|kv l IH]; intros r; simpl; [done|]. by rewrite IH. }
    repeat case_match; simpl; rewrite ?Hfold; done.
Qed.

Lemma entry_header_witness :
  Get (assembleEntry platformOK (clock readyWorld)
         (auditCollectionDefinition "audit_logs") (Some widget) None
         "widgets" EventTypeCreateReq
         (hookRequestInfo (CreateRequest widgetRequest))).1
      AuditLogFields.EventType = VStr EventTypeCreateReq.
Proof.
  refine (proj1 (entry_header platformOK DefaultOptions
                   (CreateRequest widgetRequest) readyWorld _ _)).
  vm_compute. reflexivity.
Defined.

(** The acting user of an entry, hook by hook.  A lifecycle entry names
    the user of the event's record.  A request entry names the
    authenticated principal of the request and, when there is none or the
    request information is not to be had, the user of the request's own
    record: the stored original that the update hook loads is never asked.
    An auth entry names the record that authenticated. *)
Theorem acting_user (P : Platform) (o : Options) (ev : HookEvent)
    (w : World) (E : CoreRecord) :
  records (runHook P o ev w).2 = records w ++ [E] ->
  Get E AuditLogFields.UserID =
  match ev with
  | AfterCreateSuccess e | AfterUpdateSuccess e | AfterDeleteSuccess e =>
      recordUser (evRecord e)
  | CreateRequest e | UpdateRequest e | DeleteRequest e =>
      match rqRequestInfo e with
      | inr ri => match Auth ri with
                  | Some a => VStr (Id a)
                  | None => recordUser (rqRecord e)
                  end
      | inl _ => recordUser (rqRecord e)
      end
  | AuthRequest e =>
      match auRecord e with
      | Some r => VStr (Id r)
      | None => VNil
      end
  end.
Proof.
  intros HE.
  destruct (runHook_entry P o ev w E HE) as (col & c & Hc & ->).
  rewrite entry_user_id_chain. unfold userIdNestedChain, recordUser.
  rewrite firstNonNil_two.
  destruct ev as [e|e|e|e|e|e|e];
    cbn [hookAfter hookBefore hookRequestInfo supplied fieldOf isNil].
  1-3: done.
  1-3: destruct (requestInfoOf_lookup e) as (_ & _ & _ & _ & ->);
       destruct (rqRequestInfo e) as [err|ri]; cbn -[firstNonNil]; [done|];
       by destruct (Auth ri) as [a|].
  destruct (authRequestInfoOf_lookup e) as (_ & _ & _ & _ & ->).
  simpl in Hc. by destruct (auRecord e).
Qed.

Lemma acting_user_witness :
  Get (assembleEntry platformOK (clock readyWorld)
         (auditCollectionDefinition "audit_logs") None (Some widget)
         "widgets" EventTypeDeleteReq
         (hookRequestInfo (DeleteRequest widgetDeleteRequest))).1
      AuditLogFields.UserID = VStr "u42".
Proof.
  refine (acting_user platformOK DefaultOptions
            (DeleteRequest widgetDeleteRequest) readyWorld _ _).
  vm_compute. reflexivity.
Defined.

(** Request data by hook class.  A lifecycle entry has no request address,
    method or path and no auth method.  A request entry has the address
    [RealIP()] gives, always, and the method and the path of the request
    when the request information is to be had, and never an auth method.
    An auth entry has the auth method and the address, and method and
    path on the same condition. *)
Theorem request_data_by_hook_class (P : Platform) (o : Options)
    (ev : HookEvent) (w : World) (E : CoreRecord) :
  records (runHook P o ev w).2 = records w ++ [E] ->
  match ev with
  | AfterCreateSuccess _ | AfterUpdateSuccess _ | AfterDeleteSuccess _ =>
      absent E AuditLogFields.RequestIP /\
      absent E AuditLogFields.RequestMethod /\
      absent E AuditLogFields.RequestURL /\
      absent E AuditLogFields.AuthMethod
  | CreateRequest e | UpdateRequest e | DeleteRequest e =>
      Get E AuditLogFields.RequestIP = VStr (rqRealIP e) /\
      Get E AuditLogFields.RequestMethod
        = match rqRequestInfo e with
          | inr ri => VStr (Method ri) | inl _ => VNil end /\
      Get E AuditLogFields.RequestURL
        = match rqRequestInfo e with
          | inr ri => VStr (Context ri) | inl _ => VNil end /\
      absent E AuditLogFields.AuthMethod
  | AuthRequest e =>
      Get E AuditLogFields.RequestIP = VStr (auRealIP e) /\
      Get E AuditLogFields.RequestMethod
        = match auRequestInfo e with
          | inr ri => VStr (Method ri) | inl _ => VNil end /\
      Get E AuditLogFields.RequestURL
        = match auRequestInfo e with
          | inr ri => VStr (Context ri) | inl _ => VNil end /\
      Get E AuditLogFields.AuthMethod = VStr (auAuthMethod e)
  end.
Proof.
  intros HE.
  destruct (runHook_entry P o ev w E HE) as (col & c & Hc & ->).
  unfold absent.
  destruct ev as [e|e|e|e|e|e|e]; cbn [hookRequestInfo].
  1-3: repeat split; rewrite Get_entry_merged by keys_differ;
       by rewrite Get_basicEntry_other by keys_differ.
  1-3: destruct (requestInfoOf_lookup e) as (H1 & H2 & H3 & H4 & _);
       repeat split; rewrite Get_entry_merged by keys_differ;
       rewrite ?H1, ?H2, ?H3, ?H4; try done;
       destruct (rqRequestInfo e); try done;
       by rewrite Get_basicEntry_other by keys_differ.
  destruct (authRequestInfoOf_lookup e) as (H1 & H2 & H3 & H4 & _).
  repeat split; rewrite Get_entry_merged by keys_differ;
    rewrite ?H1, ?H2, ?H3, ?H4; try done;
    destruct (auRequestInfo e); try done;
    by rewrite Get_basicEntry_other by keys_differ.
Qed.

Lemma request_data_by_hook_class_witness :
  Get (assembleEntry platformOK (clock readyWorld)
         (auditCollectionDefinition "audit_logs") None (Some widget)
         "widgets" EventTypeDeleteReq
         (hookRequestInfo (DeleteRequest widgetDeleteRequest))).1
      AuditLogFields.RequestIP = VStr "10.0.0.7".
Proof.
  refine (proj1 (request_data_by_hook_class platformOK DefaultOptions
                   (DeleteRequest widgetDeleteRequest) readyWorld _ _)).
  vm_compute. reflexivity.
Defined.

(** The snapshots hold the serialised records: [after_changes] is the
    text of the after-record, [before_changes] that of the before-record,
    each as [json.Marshal] and the pass through a generic map give it; and
    the before-record of an update request is a record stored under the
    collection and the id of the request's record. *)
Theorem snapshots_hold_the_records (P : Platform) (o : Options)
    (ev : HookEvent) (w : World) (E : CoreRecord) :
  records (runHook P o ev w).2 = records w ++ [E] ->
  (forall x dataJSON json,
     hookAfter ev = Some x -> marshalRecord P x = Some dataJSON ->
     marshalMap P dataJSON = Some json ->
     Get E AuditLogFields.AfterChanges = VStr json) /\
  (forall y dataJSON json,
     hookBefore w ev = Some y -> marshalRecord P y = Some dataJSON ->
     marshalMap P dataJSON = Some json ->
     Get E AuditLogFields.BeforeChanges = VStr json) /\
  (forall e y,
     ev = UpdateRequest e -> hookBefore w ev = Some y ->
     In y (records w) /\ recCollection y = rqCollection e /\
     Id y = Id (rqRecord e)).
Proof.
  intros HE.
  destruct (runHook_entry P o ev w E HE) as (col & c & Hc & ->).
  split; [|split].
  - intros x d j Hx Hd Hj.
    rewrite Get_entry_after by (apply hookRequestInfo_leaves; not_request_key).
    by rewrite Hx, Hd, Hj.
  - intros y d j Hy Hd Hj.
    rewrite Get_entry_before by (apply hookRequestInfo_leaves; not_request_key).
    by rewrite Hy, Hd, Hj.
  - intros e y -> Hy. simpl in Hy. unfold loadOriginal, FindRecordById in Hy.
    destruct (List.find _ (records w)) as [r|] eqn:Hfind; [|done].
    injection Hy as <-. apply find_some in Hfind as [Hin Hb].
    apply andb_true_iff in Hb as [H1 H2].
    apply String.eqb_eq in H1, H2. done.
Qed.

Lemma snapshots_hold_the_records_witness :
  Get (assembleEntry platformOK (clock readyWorld)
         (auditCollectionDefinition "audit_logs") None (Some widget)
         "widgets" EventTypeDeleteReq
         (hookRequestInfo (DeleteRequest widgetDeleteRequest))).1
      AuditLogFields.BeforeChanges = VStr "w1".
Proof.
  refine (proj1 (proj2 (snapshots_hold_the_records platformOK DefaultOptions
                   (DeleteRequest widgetDeleteRequest) readyWorld _ _))
            widget "w1" "w1" _ _ _).
  - vm_compute. reflexivity.
  - reflexivity.
  - reflexivity.
  - reflexivity.
Defined.

(* ===================================================================== *)
(** ** The logger and the schema of the provisioner *)
(* ===================================================================== *)

Lemma recData_resolveUserID (a b : option CoreRecord) (r : CoreRecord) :
  recData (resolveUserID a b r) = recData r \/
  exists v, recData (resolveUserID a b r)
            = <[AuditLogFields.UserID := v]> (recData r).
Proof.
  unfold resolveUserID, userFromRecord.
  repeat case_match; simpl; eauto.
Qed.

Lemma recData_storeChanges (P : Platform) (key : string) (m1 m2 : LogMsg)
    (x : option CoreRecord) (r : CoreRecord) :
  recData (storeChanges P key m1 m2 x r).1 = recData r \/
  exists v, recData (storeChanges P key m1 m2 x r).1 = <[key := v]> (recData r).
Proof.
  unfold storeChanges. repeat case_match; simpl; eauto.
Qed.

(** The keys an assembled entry can hold. *)
Lemma entry_keys (P : Platform) (now : Z) (col : Collection)
    (a b : option CoreRecord) (c t : string)
    (ri : option (gmap string value)) (k : string) :
  is_Some (recData (assembleEntry P now col a b c t ri).1 !! k) ->
  In k [ AuditLogFields.EventType; AuditLogFields.CollectionName;
         AuditLogFields.RecordID; AuditLogFields.Timestamp;
         AuditLogFields.UserID; AuditLogFields.BeforeChanges;
         AuditLogFields.AfterChanges ] \/
  ~ leavesKey ri k.
Proof.
  rewrite assembleEntry_entry.
  set (r0 := applyRequestInfo ri (basicEntry now col a b c t)).
  set (r1 := resolveUserID a b r0).
  set (r2 := (storeChanges P AuditLogFields.BeforeChanges _ _ b r1).1).
  assert (H0 : is_Some (recData r0 !! k) ->
               In k [ AuditLogFields.EventType; AuditLogFields.CollectionName;
                      AuditLogFields.RecordID; AuditLogFields.Timestamp ] \/
               ~ leavesKey ri k).
  { subst r0. destruct ri as [info|].
    - rewrite applyRequestInfo_data, lookup_union_is_Some.
      intros [Hi|Hb].
      + right. simpl. intros Hn. rewrite Hn in Hi. by destruct Hi.
      + left. revert Hb. unfold basicEntry, SetField, NewRecord; simpl.
        rewrite !lookup_insert_is_Some, lookup_empty.
        intros [?|[_ [?|[_ [?|[_ [?|[_ [? ?]]]]]]]]]; subst; simpl; auto.
        done.
    - intros Hb. left. revert Hb.
      unfold applyRequestInfo, basicEntry, SetField, NewRecord; simpl.
      rewrite !lookup_insert_is_Some, lookup_empty.
      intros [?|[_ [?|[_ [?|[_ [?|[_ [? ?]]]]]]]]]; subst; simpl; auto.
      done. }
  assert (H1 : is_Some (recData r1 !! k) ->
               k = AuditLogFields.UserID \/ is_Some (recData r0 !! k)).
  { subst r1. destruct (recData_resolveUserID a b r0) as [->|[v ->]]; [auto|].
    rewrite lookup_insert_is_Some. intros [?|[_ ?]]; auto. }
  assert (H2 : is_Some (recData r2 !! k) ->
               k = AuditLogFields.BeforeChanges \/ is_Some (recData r1 !! k)).
  { subst r2.
    destruct (recData_storeChanges P AuditLogFields.BeforeChanges
                LogMarshalBeforeRecordFailed LogMarshalBeforeChangesFailed
                b r1) as [->|[v ->]]; [auto|].
    rewrite lookup_insert_is_Some. intros [?|[_ ?]]; auto. }
  destruct (recData_storeChanges P AuditLogFields.AfterChanges
              LogMarshalAfterRecordFailed LogMarshalAfterChangesFailed
              a r2) as [->|[v ->]].
  - intros Hk. destruct (H2 Hk) as [->|Hk1]; [left; simpl; tauto|].
    destruct (H1 Hk1) as [->|Hk0]; [left; simpl; tauto|].
    destruct (H0 Hk0) as [Hin|Hn]; [|by right].
    left. simpl in *. tauto.
  - rewrite lookup_insert_is_Some. intros [<-|[_ Hk]]; [left; simpl; tauto|].
    destruct (H2 Hk) as [->|Hk1]; [left; simpl; tauto|].
    destruct (H1 Hk1) as [->|Hk0]; [left; simpl; tauto|].
    destruct (H0 Hk0) as [Hin|Hn]; [|by right].
    left. simpl in *. tauto.
Qed.

(** The logger fits the schema that the provisioner creates: an entry
    appended by a hook writes no field but those the audit collection
    declares, and every field the collection declares required holds a
    value in it. *)
Theorem entries_fit_the_schema (P : Platform) (o : Options) (ev : HookEvent)
    (w : World) (E : CoreRecord) (name : string) :
  records (runHook P o ev w).2 = records w ++ [E] ->
  (forall k, is_Some (recData E !! k) ->
             In k (fieldNames (auditCollectionDefinition name))) /\
  Forall (present E) (requiredNames (auditCollectionDefinition name)).
Proof.
  intros HE.
  pose proof (hook_entry_event_type P o ev w E HE) as Ht.
  pose proof (hook_entry_timestamp P o ev w E HE) as Hts.
  destruct (hook_entry_collection_name P o ev w E HE) as (c & _ & Hcn).
  destruct (runHook_entry P o ev w E HE) as (col & c' & Hc & HEq).
  assert (Hid : exists s, Get E AuditLogFields.RecordID = VStr s).
  { rewrite HEq. rewrite Get_entry_kept; try keys_differ.
    - rewrite Get_basicEntry_record_id. by eexists.
    - apply hookRequestInfo_leaves. not_request_key. }
  split.
  - intros k Hk. rewrite HEq in Hk.
    destruct (entry_keys _ _ _ _ _ _ _ _ _ Hk) as [Hin|Hn].
    + simpl in Hin. cbv. tauto.
    + destruct (decide (k ∈ requestKeys)) as [Hr|Hr].
      * unfold requestKeys in Hr. rewrite !elem_of_cons in Hr.
        cbv. destruct Hr as [->|[->|[->|[->|[->|Hr]]]]]; try tauto.
        by apply elem_of_nil in Hr.
      * exfalso. apply Hn. by apply hookRequestInfo_leaves.
  - unfold requiredNames, present. simpl.
    repeat constructor; unfold AuditLogFields.EventType,
      AuditLogFields.CollectionName, AuditLogFields.RecordID,
      AuditLogFields.Timestamp in *.
    + by rewrite Ht.
    + by rewrite Hcn.
    + destruct Hid as [s ->]. done.
    + by rewrite Hts.
Qed.

Lemma entries_fit_the_schema_witness :
  Forall (present
            (assembleEntry platformOK (clock readyWorld)
               (auditCollectionDefinition "audit_logs") None (Some widget)
               "widgets" EventTypeDeleteReq
               (hookRequestInfo (DeleteRequest widgetDeleteRequest))).1)
         (requiredNames (auditCollectionDefinition "audit_logs")).
Proof.
  refine (proj2 (entries_fit_the_schema platformOK DefaultOptions
                   (DeleteRequest widgetDeleteRequest) readyWorld _
                   "audit_logs" _)).
  vm_compute. reflexivity.
Defined.

(** Nothing is missed on a healthy platform: with no filter configured,
    the audit collection in place and a [Save] that accepts every record,
    each event on another collection appends exactly one entry, and a run
    of such events as many entries as there are events. *)
Theorem every_event_is_logged (P : Platform) (o : Options)
    (evs : list HookEvent) (w : World) :
  EventFilter o = None ->
  acceptsRecords P ->
  is_Some (collections w !! CollectionName o) ->
  Forall (fun ev => exists c, hookCollection ev = Some c /\
                              c <> CollectionName o) evs ->
  exists added,
    records (runHooks P o evs w) = records w ++ added /\
    length added = length evs /\
    Forall2 (fun ev E =>
               Get E AuditLogFields.EventType = VStr (hookEventType ev) /\
               exists c, hookCollection ev = Some c /\
                         Get E AuditLogFields.CollectionName = VStr c)
            evs added.
Proof.
  intros Hf Hacc. revert w.
  induction evs as [|ev evs IH]; intros w Hcol Hall.
  - exists []. rewrite app_nil_r. repeat split; [done..|constructor].
  - apply Forall_cons in Hall as [(c & Hc & Hne) Hall].
    assert (Hone : exists E, records (runHook P o ev w).2 = records w ++ [E]).
    { destruct (runHook_via_logEvent P o ev w c Hc Hne) as (logs & ->).
      destruct Hcol as [col Hcol].
      assert (Hg : shouldLogEvent o c (hookEventType ev) = true).
      { rewrite default_policy by done.
        by destruct (String.eqb_spec c (CollectionName o)). }
      assert (Hfind : FindCollectionByNameOrId (addLog w logs) (CollectionName o)
                      = inr col).
      { unfold FindCollectionByNameOrId. simpl. by rewrite Hcol. }
      rewrite (logEvent_run P o _ _ c _ _ (addLog w logs) col Hg Hfind).
      cbv zeta. rewrite Hacc. eexists. by destruct (LogToConsole o). }
    destruct Hone as [E HE].
    pose proof (hook_entry_event_type P o ev w E HE) as Ht.
    pose proof (hook_entry_collection_name P o ev w E HE) as Hcn.
    destruct (IH (runHook P o ev w).2) as (added & Hr & Hlen & Hall2).
    { by rewrite (proj1 (runHook_collections P o ev w)). }
    { done. }
    exists (E :: added). unfold runHooks in *. simpl.
    rewrite Hr, HE, <- app_assoc. simpl.
    repeat split; [by rewrite Hlen|]. by constructor.
Qed.

Lemma every_event_is_logged_witness :
  exists added,
    records (runHooks platformOK DefaultOptions
               [CreateRequest widgetRequest; DeleteRequest widgetDeleteRequest]
               readyWorld) = records readyWorld ++ added /\
    length added = 2 /\
    Forall2 (fun ev E =>
               Get E AuditLogFields.EventType = VStr (hookEventType ev) /\
               exists c, hookCollection ev = Some c /\
                         Get E AuditLogFields.CollectionName = VStr c)
            [CreateRequest widgetRequest; DeleteRequest widgetDeleteRequest]
            added.
Proof.
  apply (every_event_is_logged platformOK DefaultOptions
           [CreateRequest widgetRequest; DeleteRequest widgetDeleteRequest]
           readyWorld).
  - reflexivity.
  - intros w r. reflexivity.
  - eexists. reflexivity.
  - repeat constructor; exists "widgets"; split; try reflexivity; discriminate.
Defined.

(* ===================================================================== *)
(** ** From start-up to the first entry *)
(* ===================================================================== *)

(** On a healthy platform a hook off the audit collection appends its
    entry. *)
Lemma healthy_hook_appends (P : Platform) (o : Options) (ev : HookEvent)
    (w : World) (c : string) :
  EventFilter o = None -> acceptsRecords P ->
  is_Some (collections w !! CollectionName o) ->
  hookCollection ev = Some c -> c <> CollectionName o ->
  exists E, records (runHook P o ev w).2 = records w ++ [E].
Proof.
  intros Hf Hacc [col Hcol] Hc Hne.
  destruct (runHook_via_logEvent P o ev w c Hc Hne) as (logs & ->).
  assert (Hg : shouldLogEvent o c (hookEventType ev) = true).
  { rewrite default_policy by done.
    by destruct (String.eqb_spec c (CollectionName o)). }
  assert (Hfind : FindCollectionByNameOrId (addLog w logs) (CollectionName o)
                  = inr col).
  { unfold FindCollectionByNameOrId. simpl. by rewrite Hcol. }
  rewrite (logEvent_run P o _ _ c _ _ (addLog w logs) col Hg Hfind).
  cbv zeta. rewrite Hacc. eexists. by destruct (LogToConsole o).
Qed.

(** After a start-up that returned nil, an event is handled by the hook of
    its registration point, run with the caller's options after
    [applyDefaultOptions], exactly when the flag of its class is on; with
    the flag off nothing is bound and the event passes untouched. *)
Theorem startup_binds_by_flags (P : Platform) (H : Host) (options : Options)
    (next : option setupError) (w : World) (rt : Runtime) :
  Setup P H options next w = (None, rt) ->
  forall (ev : HookEvent) (w' : World),
    trigger P (rtBindings rt) ev w' =
    if pointEnabled options (pointOf ev)
    then runHook P (applyDefaultOptions options) ev w'
    else (CallsNext, w').
Proof.
  intros Hrun ev w'.
  destruct (onBootstrap_ok P H _ next w rt Hrun) as (_ & w1 & _ & Hb & _).
  destruct (applyDefaultOptions_keeps options) as (Hs & Hr & Ha & _).
  unfold trigger. rewrite Hb. unfold registerHooks.
  rewrite Hs, Hr, Ha.
  unfold pointEnabled, setupStandardEventHooks, setupRequestEventHooks,
    setupAuthEventHooks.
  destruct (EnableStandardEvents options), (EnableRequestEvents options),
    (EnableAuthEvents options), ev; reflexivity.
Qed.

Lemma startup_binds_by_flags_witness :
  trigger platformOK
    (rtBindings (Setup platformOK sampleHost schemaOptions None emptyWorld).2)
    (AfterCreateSuccess (mkRecordEvent widget)) readyWorld
  = (CallsNext, readyWorld).
Proof.
  refine (startup_binds_by_flags platformOK sampleHost schemaOptions None
            emptyWorld _ _ (AfterCreateSuccess (mkRecordEvent widget))
            readyWorld).
  vm_compute. reflexivity.
Defined.

Lemma startup_collection (P : Platform) (H : Host) (o : Options)
    (next : option setupError) (w : World) (rt : Runtime) :
  onBootstrap P H o next w = (None, rt) ->
  (CreateAuditCollection o = true /\ keepsCollections H) \/
  (SchemaPath o <> "" /\ FailOnSchemaError o = true) ->
  is_Some (collections (rtWorld rt) !! CollectionName o).
Proof.
  intros Hrun Hcase.
  destruct (onBootstrap_ok P H o next w rt Hrun)
    as (_ & w1 & Hcreated & _ & Hschema).
  assert (Hw1 : CreateAuditCollection o = true ->
                is_Some (collections w1 !! CollectionName o)).
  { intros Hc. rewrite Hc in Hcreated. by eapply ensure_ok_exists. }
  destruct Hschema as [[Hs ->]|(Hs & ierr & msgs & Himp & Hok)].
  - destruct Hcase as [[Hc _]|[Hne _]]; [auto|done].
  - destruct ierr as [ierr|]; [|by eapply import_ok_exists].
    destruct Hok as [|Hoff]; [done|].
    destruct Hcase as [[Hc Hk]|[_ Hon]]; [|congruence].
    pose proof (import_keeps P H (SchemaPath o) (CollectionName o)
                  (CollectionName o) w1 Hk (Hw1 Hc)) as Hkeep.
    by rewrite Himp in Hkeep.
Qed.

(** A start-up that returned nil leaves the audit collection in place,
    under the name the logger uses, when it was asked to create it (and
    the import, as it is called, deletes no collection), or when a schema
    path was given with [FailOnSchemaError] on: the logger that the hooks
    run will find its collection. *)
Theorem startup_leaves_audit_collection (P : Platform) (H : Host)
    (options : Options) (next : option setupError) (w : World) (rt : Runtime) :
  Setup P H options next w = (None, rt) ->
  (CreateAuditCollection options = true /\ keepsCollections H) \/
  (SchemaPath options <> "" /\ FailOnSchemaError options = true) ->
  is_Some (collections (rtWorld rt)
           !! CollectionName (applyDefaultOptions options)) /\
  CollectionName (applyDefaultOptions options) <> "".
Proof.
  intros Hrun Hcase. split.
  - apply (startup_collection P H _ next w rt Hrun).
    destruct (applyDefaultOptions_keeps options)
      as (_ & _ & _ & _ & -> & -> & ->).
    exact Hcase.
  - unfold applyDefaultOptions.
    by destruct (String.eqb_spec (CollectionName options) "").
Qed.

Lemma startup_leaves_audit_collection_witness :
  is_Some (collections
             (rtWorld (Setup platformOK sampleHost schemaOptions None
                         emptyWorld).2)
           !! "audit_logs").
Proof.
  refine (proj1 (startup_leaves_audit_collection platformOK sampleHost
                   schemaOptions None emptyWorld _ _ _)).
  - vm_compute. reflexivity.
  - left. split; [reflexivity|].
    intros cols data cols' name. unfold sampleHost. simpl.
    destruct (String.eqb data "[posts]"); [|discriminate].
    intros [= <-] Hn. rewrite lookup_insert. by case_decide.
Defined.

(** From start-up to the first entry.  After a start-up that returned nil
    and was asked to create the audit collection, with request events on
    and no filter, on a platform that accepts every record: a create
    request on any collection but the audit collection is handed on with
    [e.Next()] and leaves exactly one new record, an entry of type
    [create_request] that names the collection of the request. *)
Theorem setup_then_request_is_audited (P : Platform) (H : Host)
    (options : Options) (next : option setupError) (w : World) (rt : Runtime)
    (e : RecordRequestEvent) :
  Setup P H options next w = (None, rt) ->
  CreateAuditCollection options = true -> keepsCollections H ->
  EnableRequestEvents options = true -> EventFilter options = None ->
  acceptsRecords P ->
  rqCollection e <> CollectionName (applyDefaultOptions options) ->
  (trigger P (rtBindings rt) (CreateRequest e) (rtWorld rt)).1 = CallsNext /\
  exists E,
    records (trigger P (rtBindings rt) (CreateRequest e) (rtWorld rt)).2
    = records w ++ [E] /\
    Get E AuditLogFields.EventType = VStr EventTypeCreateReq /\
    Get E AuditLogFields.CollectionName = VStr (rqCollection e).
Proof.
  intros Hrun Hc Hk Hreq Hf Hacc Hne.
  destruct (applyDefaultOptions_keeps options)
    as (_ & Hr & _ & Hfo & _ & Hca & _).
  rewrite Hreq in Hr. rewrite Hf in Hfo. rewrite Hc in Hca.
  unfold Setup in Hrun.
  set (o := applyDefaultOptions options) in *.
  assert (Htrig : trigger P (rtBindings rt) (CreateRequest e) (rtWorld rt)
                  = runHook P o (CreateRequest e) (rtWorld rt)).
  { destruct (onBootstrap_ok P H o next w rt Hrun) as (_ & w1 & _ & Hb & _).
    unfold trigger. rewrite Hb. unfold registerHooks. rewrite Hr.
    by destruct (EnableStandardEvents o), (EnableAuthEvents o). }
  rewrite Htrig. split.
  - simpl. apply request_hooks_call_next.
  - assert (Hcol : is_Some (collections (rtWorld rt) !! CollectionName o)).
    { apply (startup_collection P H o next w rt Hrun). by left. }
    destruct (healthy_hook_appends P o (CreateRequest e) (rtWorld rt)
                (rqCollection e) Hfo Hacc Hcol eq_refl Hne) as [E HE].
    exists E. split.
    + rewrite HE. f_equal.
      pose proof (onBootstrap_world P H o next w) as Hw.
      by rewrite Hrun in Hw.
    + split; [exact (hook_entry_event_type P o _ _ E HE)|].
      destruct (hook_entry_collection_name P o _ _ E HE) as (c & [= <-] & Hn).
      exact Hn.
Qed.

Lemma setup_then_request_is_audited_witness :
  (trigger platformOK
     (rtBindings (Setup platformOK sampleHost schemaOptions None emptyWorld).2)
     (CreateRequest widgetRequest)
     (rtWorld (Setup platformOK sampleHost schemaOptions None emptyWorld).2)).1
  = CallsNext.
Proof.
  refine (proj1 (setup_then_request_is_audited platformOK sampleHost
                   schemaOptions None emptyWorld _ widgetRequest
                   _ _ _ _ _ _ _)).
  - vm_compute. reflexivity.
  - reflexivity.
  - intros cols data cols' name. unfold sampleHost. simpl.
    destruct (String.eqb data "[posts]"); [|discriminate].
    intros [= <-] Hn. rewrite lookup_insert. by case_decide.
  - reflexivity.
  - reflexivity.
  - intros w0 r. reflexivity.
  - discriminate.
Defined.

(* ===================================================================== *)
(** ** The stand-alone application *)
(* ===================================================================== *)

Lemma logAuditEvent_gated (P : Platform) (a b : option CoreRecord)
    (c t : string) (ri : option (gmap string value)) (w : World) :
  c <> AuditCollectionName ->
  logAuditEvent P a b c t ri w = logEvent P DefaultOptions a b c t ri w.
Proof.
  intros Hne. unfold logAuditEvent, logEvent, shouldLogEvent. simpl.
  destruct (String.eqb_spec c "audit_logs") as [Heq|_]; [done|]. simpl.
  reflexivity.
Qed.




Lemma mainRequestDetails_ip (withAuth : bool) (x : error + RequestInfo)
    (m : gmap string value) :
  (mainRequestDetails withAuth x m).1 !! AuditLogFields.RequestIP =
  match x with
  | inr ri => Some (VStr (mainClientIP (Headers ri)))
  | inl _ => m !! AuditLogFields.RequestIP
  end.
Proof.
  unfold mainRequestDetails. destruct x as [err|ri]; [done|].
  destruct withAuth, (Auth ri); cbn [fst];
    rewrite ?(lookup_insert_ne _ AuditLogFields.UserID) by keys_differ;
    rewrite (lookup_insert_ne _ AuditLogFields.RequestURL) by keys_differ;
    apply lookup_insert_eq.
Qed.

(** In the stand-alone application the address of a request entry comes
    from the headers alone: it is the forwarded-for header, else the
    real-ip header, else the Cloudflare header, when the request
    information is to be had, and the entry has no address at all when it
    is not.  [RealIP()] is never asked. *)
Theorem standalone_request_address (P : Platform) (e : RecordRequestEvent)
    (w : World) (E : CoreRecord) (ev : HookEvent) :
  ev = CreateRequest e \/ ev = UpdateRequest e \/ ev = DeleteRequest e ->
  records (mainRunHook P ev w).2 = records w ++ [E] ->
  Get E AuditLogFields.RequestIP =
  match rqRequestInfo e with
  | inr ri => VStr (mainClientIP (Headers ri))
  | inl _ => VNil
  end.
Proof.
  intros Hev HE.
  assert (Hcore : forall a b t w0,
    records (logAuditEvent P a b (rqCollection e) t
               (Some (mainRequestDetails true (rqRequestInfo e) ∅).1) w0).2
    = records w0 ++ [E] ->
    rqCollection e <> AuditCollectionName ->
    Get E AuditLogFields.RequestIP =
    match rqRequestInfo e with
    | inr ri => VStr (mainClientIP (Headers ri))
    | inl _ => VNil
    end).
  { intros a b t w0 Hrec Hne.
    rewrite logAuditEvent_gated in Hrec by done.
    destruct (logEvent_records P DefaultOptions a b (rqCollection e) t
                (Some (mainRequestDetails true (rqRequestInfo e) ∅).1) w0)
      as [H|(col & _ & _ & _ & H)]; rewrite H in Hrec.
    - symmetry in Hrec. apply (f_equal length) in Hrec.
      rewrite length_app in Hrec. simpl in Hrec. lia.
    - apply app_inv_head in Hrec. injection Hrec as <-.
      rewrite Get_entry_merged by keys_differ.
      rewrite mainRequestDetails_ip.
      destruct (rqRequestInfo e); [|done].
      rewrite lookup_empty. by rewrite Get_basicEntry_other by keys_differ. }
  assert (Hstill : records w = records w ++ [E] -> False).
  { intros Hrec. symmetry in Hrec. apply (f_equal length) in Hrec.
    rewrite length_app in Hrec. simpl in Hrec. lia. }
  destruct Hev as [-> | [-> | ->]]; simpl in HE.
  - unfold mainOnRecordCreateRequest in HE.
    destruct (String.eqb_spec (rqCollection e) AuditCollectionName);
      [by destruct Hstill|].
    destruct (mainRequestDetails true (rqRequestInfo e) ∅) as [info logs] eqn:Hd.
    simpl in HE. rewrite logAndDiscard_records in HE.
    eapply (Hcore _ _ _ (addLog w logs)); [exact HE|done].
  - unfold mainOnRecordUpdateRequest in HE.
    destruct (String.eqb_spec (rqCollection e) AuditCollectionName);
      [by destruct Hstill|].
    destruct (loadOriginal w e) as [orig logs0].
    destruct (mainRequestDetails true (rqRequestInfo e) ∅) as [info logs] eqn:Hd.
    simpl in HE. rewrite logAndDiscard_records in HE.
    eapply (Hcore _ _ _ (addLog (addLog w logs0) logs)); [exact HE|done].
  - unfold mainOnRecordDeleteRequest in HE.
    destruct (String.eqb_spec (rqCollection e) AuditCollectionName);
      [by destruct Hstill|].
    destruct (mainRequestDetails true (rqRequestInfo e) ∅) as [info logs] eqn:Hd.
    simpl in HE. rewrite logAndDiscard_records in HE.
    eapply (Hcore _ _ _ (addLog w logs)); [exact HE|done].
Qed.

Lemma standalone_request_address_witness :
  Get (assembleEntry platformOK (clock readyWorld)
         (auditCollectionDefinition "audit_logs") None (Some widget)
         "widgets" EventTypeDeleteReq
         (Some (mainRequestDetails true
                  (rqRequestInfo widgetDeleteRequest) ∅).1)).1
      AuditLogFields.RequestIP = VStr "2.2.2.2, 3.3.3.3".
Proof.
  refine (standalone_request_address platformOK widgetDeleteRequest readyWorld
            _ (DeleteRequest widgetDeleteRequest) _ _).
  - right. right. reflexivity.
  - vm_compute. reflexivity.
Defined.

(* ===================================================================== *)
(** ** The forwarded address *)
(* ===================================================================== *)

Lemma Split_first_no_sep (s : string) (sep : ascii) (first : string)
    (rest : list string) :
  Split s sep = first :: rest -> ~ In sep (bytesOf first).
Proof.
  revert first rest. induction s as [|c s IH]; intros first rest; simpl.
  - intros [= <- _]. simpl. tauto.
  - destruct (Ascii.eqb_spec c sep) as [->|Hne].
    + intros [= <- _]. simpl. tauto.
    + destruct (Split s sep) as [|piece more] eqn:Hs.
      * intros [= <- _]. simpl. intros [?|[]]. by subst.
      * intros [= <- _]. simpl. intros [?|Hin]; [by subst|].
        by eapply IH.
Qed.

Lemma trimLeft_bytes (s : string) (c : ascii) :
  In c (bytesOf (trimLeft s)) -> In c (bytesOf s).
Proof.
  induction s as [|a s IH]; simpl; [done|].
  destruct (isSpace a); simpl; auto.
Qed.

Lemma trimRight_bytes (s : string) (c : ascii) :
  In c (bytesOf (trimRight s)) -> In c (bytesOf s).
Proof.
  induction s as [|a s IH]; simpl; [done|].
  destruct (trimRight s) as [|b t] eqn:Ht.
  - destruct (isSpace a); simpl; tauto.
  - simpl in *. tauto.
Qed.

Lemma trimRight_idem (s : string) : trimRight (trimRight s) = trimRight s.
Proof.
  induction s as [|a s IH]; simpl; [done|].
  destruct (trimRight s) as [|b t] eqn:Ht.
  - destruct (isSpace a) eqn:Ha; simpl; [done|]. by rewrite Ha.
  - change (trimRight (String a (String b t))) with
      (match trimRight (String b t) with
       | EmptyString => if isSpace a then EmptyString else String a EmptyString
       | t' => String a t'
       end).
    by rewrite IH.
Qed.

Lemma trimLeft_head (s : string) (a : ascii) (u : string) :
  trimLeft s = String a u -> isSpace a = false.
Proof.
  induction s as [|b s IH]; simpl; [done|].
  destruct (isSpace b) eqn:Hb; [done|]. by intros [= <- _].
Qed.

Lemma trimRight_head (s : string) (a : ascii) (u : string) :
  trimRight s = String a u -> exists u', s = String a u'.
Proof.
  destruct s as [|b s]; simpl; [done|].
  destruct (trimRight s); [destruct (isSpace b)|]; intros [= <- _]; eauto.
Qed.

Lemma TrimSpace_idem (s : string) : TrimSpace (TrimSpace s) = TrimSpace s.
Proof.
  unfold TrimSpace.
  destruct (trimRight (trimLeft s)) as [|a u] eqn:Ht; [done|].
  destruct (trimRight_head _ _ _ Ht) as [u' Hl].
  pose proof (trimLeft_head _ _ _ Hl) as Ha.
  simpl trimLeft. rewrite Ha, <- Ht. apply trimRight_idem.
Qed.

(** An address taken from the forwarded-for header is clean: when the
    event has no [RealIP()] and the Cloudflare header is missing or empty,
    a non-empty [x-forwarded-for] decides the answer alone, whatever the
    later headers hold; the answer is its first entry, made of bytes of
    the header, without a comma, and trimming it again changes
    nothing. *)
Theorem forwarded_address_is_clean (e : EventCaps) (reqInfo : RequestInfo)
    (forwardedFor : string) :
  capRealIP e = None ->
  capRequestInfo e = Some (inr reqInfo) ->
  candidate (Headers reqInfo) "cf-connecting-ip" = None ->
  candidate (Headers reqInfo) "x-forwarded-for" = Some forwardedFor ->
  (extractIP e).1 = firstEntry forwardedFor /\
  ~ In comma (bytesOf (extractIP e).1) /\
  TrimSpace (extractIP e).1 = (extractIP e).1 /\
  (forall c, In c (bytesOf (extractIP e).1) -> In c (bytesOf forwardedFor)).
Proof.
  intros Hreal Hinfo Hcf Hxff.
  assert (Hip : (extractIP e).1 = firstEntry forwardedFor).
  { rewrite extractIP_chain. unfold ipChain.
    rewrite Hreal, Hinfo. cbv zeta. rewrite Hcf, Hxff. reflexivity. }
  rewrite Hip. unfold firstEntry.
  destruct (Split_first forwardedFor comma) as (first & rest & Hs).
  rewrite Hs. simpl hd.
  pose proof (Split_first_no_sep _ _ _ _ Hs) as Hno.
  assert (Hsub : forall c, In c (bytesOf (TrimSpace first)) ->
                           In c (bytesOf first)).
  { intros c Hc. unfold TrimSpace in Hc.
    by apply trimLeft_bytes, trimRight_bytes. }
  split; [done|]. split; [|split].
  - intros Hin. by apply Hno, Hsub.
  - apply TrimSpace_idem.
  - intros c Hc. apply Hsub in Hc.
    clear -Hs Hc. revert first rest Hs Hc.
    induction forwardedFor as [|a s IH]; intros first rest; simpl.
    + by intros [= <- _].
    + destruct (Ascii.eqb a comma).
      * by intros [= <- _].
      * destruct (Split s comma) as [|piece more] eqn:Hsp.
        -- intros [= <- _]. simpl. tauto.
        -- intros [= <- _]. simpl. intros [?|Hin]; [by left|].
           right. by eapply IH.
Qed.

Lemma forwarded_address_is_clean_witness :
  (extractIP (headersEvent forwardedOnly)).1 = firstEntry "2.2.2.2, 3.3.3.3".
Proof.
  refine (proj1 (forwarded_address_is_clean (headersEvent forwardedOnly)
                   _ "2.2.2.2, 3.3.3.3" _ _ _ _)).
  - reflexivity.
  - reflexivity.
  - vm_compute. reflexivity.
  - vm_compute. reflexivity.
Defined.
